(** * The authenticated API request pipeline of the admin dashboard

    A shallow embedding of [src/lib/api/client.ts], [src/lib/api/auth.ts],
    [src/store/authStore.ts] and the pagination arithmetic of the users
    page, with the properties of the request pipeline proved over it;
    then the session check of the admin layout, the footer of the paged
    tables, the toast store and the relative times of the date utilities.

    The browser is modelled as explicit state: the two storage areas, the
    cookie string, the list of requests put on the wire and the console.
    The backend is a function from the requests sent so far and the current
    request to the outcome of that [fetch]. *)

From Stdlib Require Import ZArith QArith Qround Ascii String.
From stdpp Require Import base option list strings gmap pretty.

Open Scope Z_scope.

(** ** JavaScript values

    The values that [JSON.parse] produces, together with [undefined] (the
    result of reading a missing property).  Numbers are integers: the code
    only tests response numbers for truthiness and prints the status.  An
    object is the list of its own properties. *)

#[warnings="-register-all"]
Inductive JsVal : Type :=
| JUndefined
| JNull
| JBool (b : bool)
| JNum (n : Z)
| JStr (s : string)
| JArr (xs : list JsVal)
| JObj (fields : list (string * JsVal)).

(** [if (v)], [v || w], [!v] *)
Definition truthy (v : JsVal) : bool :=
  match v with
  | JUndefined | JNull => false
  | JBool b => b
  | JNum n => negb (n =? 0)
  | JStr s => negb (String.eqb s "")
  | JArr _ | JObj _ => true
  end.

Fixpoint assoc (k : string) (fields : list (string * JsVal)) : JsVal :=
  match fields with
  | [] => JUndefined
  | (k', v) :: rest => if String.eqb k k' then v else assoc k rest
  end.

(** [v.k] for the data property names the code reads ([detail],
    [csrf_token], [access_token], [refresh_token], [user], [is_admin]).
    [None] is the TypeError of reading a property of [null] or
    [undefined]; a primitive or an array has no such property. *)
Definition get_prop (v : JsVal) (k : string) : option JsVal :=
  match v with
  | JUndefined | JNull => None
  | JObj fields => Some (assoc k fields)
  | _ => Some JUndefined
  end.

(** [s.includes(needle)] on strings *)
Fixpoint includes (s needle : string) : bool :=
  String.prefix needle s ||
  match s with
  | EmptyString => false
  | String _ s' => includes s' needle
  end.

Definition is_str (needle : string) (v : JsVal) : bool :=
  match v with
  | JStr s => String.eqb s needle
  | _ => false
  end.

(** [v.includes('...')] on a truthy value: [String.prototype.includes] on
    a string, [Array.prototype.includes] on an array, and a TypeError
    ([None]) on anything else, which has no callable [includes]. *)
Definition js_includes (v : JsVal) (needle : string) : option bool :=
  match v with
  | JStr s => Some (includes s needle)
  | JArr xs => Some (existsb (is_str needle) xs)
  | _ => None
  end.

(** [String(v)], the coercion applied by [Storage.setItem] and by [fetch]
    to header values. *)
Fixpoint js_to_string (v : JsVal) : string :=
  match v with
  | JUndefined => "undefined"
  | JNull => "null"
  | JBool true => "true"
  | JBool false => "false"
  | JNum n => pretty n
  | JStr s => s
  | JArr xs =>
      (fix join (l : list JsVal) : string :=
         match l with
         | [] => ""
         | x :: rest =>
             let elem :=
               match x with
               | JUndefined | JNull => ""
               | _ => js_to_string x
               end in
             match rest with
             | [] => elem
             | _ :: _ => elem +:+ "," +:+ join rest
             end
         end) xs
  | JObj _ => "[object Object]"
  end.

(** ** Strings

    Strings are ASCII, as cookie strings, header values and method names
    are. *)

Definition startsWith (s p : string) : bool := String.prefix p s.

(** [s.split(sep)] for a one-character separator *)
Fixpoint split (sep : ascii) (s : string) : list string :=
  match s with
  | EmptyString => [EmptyString]
  | String c s' =>
      if Ascii.eqb c sep then EmptyString :: split sep s'
      else match split sep s' with
           | seg :: segs => String c seg :: segs
           | [] => [String c EmptyString]
           end
  end.

Definition is_whitespace (c : ascii) : bool :=
  let n := nat_of_ascii c in
  ((9 <=? n) && (n <=? 13) || (n =? 32))%nat.

Fixpoint trimStart (s : string) : string :=
  match s with
  | String c s' => if is_whitespace c then trimStart s' else s
  | EmptyString => EmptyString
  end.

Fixpoint trimEnd (s : string) : string :=
  match s with
  | EmptyString => EmptyString
  | String c s' =>
      match trimEnd s' with
      | EmptyString => if is_whitespace c then EmptyString else String c EmptyString
      | t => String c t
      end
  end.

(** [s.trim()] *)
Definition trim (s : string) : string := trimEnd (trimStart s).

Definition upper_char (c : ascii) : ascii :=
  let n := nat_of_ascii c in
  if ((97 <=? n) && (n <=? 122))%nat then ascii_of_nat (n - 32) else c.

(** [s.toUpperCase()] *)
Fixpoint toUpperCase (s : string) : string :=
  match s with
  | EmptyString => EmptyString
  | String c s' => String (upper_char c) (toUpperCase s')
  end.

(** ** Requests and responses *)

(** A request body: text given by the caller, or [JSON.stringify(v)]. *)
Inductive Body : Type :=
| BodyText (s : string)
| BodyJson (v : JsVal).

(** The caller's [RequestInit]: [options.method], [options.headers],
    [options.body]. *)
Record RequestInit : Type := mkInit {
  init_method : option string;
  init_headers : option (gmap string string);
  init_body : option Body
}.

(** What [fetch(url, {...})] is called with. *)
Record Request : Type := mkRequest {
  req_url : string;
  req_method : option string;
  req_headers : gmap string string;
  req_body : option Body;
  req_credentials : string
}.

(** A response as the client observes it: [status], [statusText], the
    [content-type] header, the body text, and [json], the outcome of
    parsing that text as JSON ([None] when [JSON.parse] throws, as it does
    on the empty text).  [set_cookie] is the value of [document.cookie]
    once the response has been received, when the response changes it. *)
Record Response : Type := mkResponse {
  status : Z;
  statusText : string;
  content_type : option string;
  text : string;
  json : option JsVal;
  set_cookie : option string
}.

(** [response.ok] *)
Definition ok (r : Response) : bool := (200 <=? status r) && (status r <=? 299).

Inductive FetchOutcome : Type :=
| NetworkError
| Responded (r : Response).

(** ** The browser *)

Record Browser : Type := mkBrowser {
  localStorage : gmap string string;
  sessionStorage : gmap string string;
  cookie : string
}.

(** The exceptions of the client: a thrown value, the built-in errors,
    and the rejection of [fetch] when the network fails. *)
Inductive Exn : Type :=
| Thrown (v : JsVal)
| TypeError
| SyntaxError
| ReferenceError
| FetchFailed.

(** [console.warn(msg, arg)] and [console.error(msg, error)] *)
Inductive LogEntry : Type :=
| Warn (msg : string) (arg : string)
| Error (msg : string) (e : Exn).

(** [window] is [None] where [typeof window === 'undefined'] (rendering on
    the server).  [sent] lists the requests put on the wire, oldest first;
    [console] the console output, oldest first. *)
Record World : Type := mkWorld {
  window : option Browser;
  sent : list Request;
  console : list LogEntry
}.

Inductive Result (A : Type) : Type :=
| Ok (a : A)
| Throw (e : Exn).
Arguments Ok {A} a.
Arguments Throw {A} e.

(** Computations that read and change a state and may throw; the state
    survives a throw. *)
Definition ST (S A : Type) : Type := S -> Result A * S.

Definition ret {S A} (a : A) : ST S A := fun w => (Ok a, w).

Definition throw {S A} (e : Exn) : ST S A := fun w => (Throw e, w).

Definition bind {S A B} (m : ST S A) (k : A -> ST S B) : ST S B :=
  fun w =>
    match m w with
    | (Ok a, w') => k a w'
    | (Throw e, w') => (Throw e, w')
    end.

(** [try { m } catch (e) { h e }], also [promise.catch(h)] *)
Definition catch {S A} (m : ST S A) (h : Exn -> ST S A) : ST S A :=
  fun w =>
    match m w with
    | (Ok a, w') => (Ok a, w')
    | (Throw e, w') => h e w'
    end.

Notation "x <- m ;; k" := (bind m (fun x => k))
  (at level 100, m at next level, right associativity).
Notation "m ;;; k" := (bind m (fun _ => k))
  (at level 100, right associativity).

(** The client runs over the world. *)
Definition M (A : Type) : Type := ST World A.

Definition of_option {S A} (e : Exn) (o : option A) : ST S A :=
  match o with
  | Some a => ret a
  | None => throw e
  end.

(** [typeof window === 'undefined'] *)
Definition typeof_window_undefined : M bool :=
  fun w =>
    match window w with
    | None => (Ok true, w)
    | Some _ => (Ok false, w)
    end.

(** Reading from and writing to the browser; with no [window] the globals
    [localStorage], [sessionStorage] and [document] are not defined. *)
Definition read_browser {A} (f : Browser -> A) : M A :=
  fun w =>
    match window w with
    | None => (Throw ReferenceError, w)
    | Some b => (Ok (f b), w)
    end.

Definition write_browser (f : Browser -> Browser) : M unit :=
  fun w =>
    match window w with
    | None => (Throw ReferenceError, w)
    | Some b => (Ok tt, mkWorld (Some (f b)) (sent w) (console w))
    end.

Definition set_local (k v : string) (b : Browser) : Browser :=
  mkBrowser (<[k := v]> (localStorage b)) (sessionStorage b) (cookie b).

Definition remove_local (k : string) (b : Browser) : Browser :=
  mkBrowser (delete k (localStorage b)) (sessionStorage b) (cookie b).

Definition set_session (k v : string) (b : Browser) : Browser :=
  mkBrowser (localStorage b) (<[k := v]> (sessionStorage b)) (cookie b).

Definition localStorage_getItem (k : string) : M (option string) :=
  read_browser (fun b => localStorage b !! k).

Definition localStorage_setItem (k v : string) : M unit :=
  write_browser (set_local k v).

Definition localStorage_removeItem (k : string) : M unit :=
  write_browser (remove_local k).

Definition sessionStorage_getItem (k : string) : M (option string) :=
  read_browser (fun b => sessionStorage b !! k).

Definition sessionStorage_setItem (k v : string) : M unit :=
  write_browser (set_session k v).

Definition document_cookie : M string :=
  read_browser cookie.

Definition console_warn (msg arg : string) : M unit :=
  fun w => (Ok tt, mkWorld (window w) (sent w) (console w ++ [Warn msg arg])).

Definition console_error (msg : string) (e : Exn) : M unit :=
  fun w => (Ok tt, mkWorld (window w) (sent w) (console w ++ [Error msg e])).

(** [response.json()] *)
Definition response_json (r : Response) : M JsVal :=
  of_option SyntaxError (json r).

(** [v.k], throwing on [null] and [undefined] *)
Definition prop {S} (v : JsVal) (k : string) : ST S JsVal :=
  of_option TypeError (get_prop v k).

(** a [string | null] as a value *)
Definition of_nullable (o : option string) : JsVal :=
  match o with
  | Some s => JStr s
  | None => JNull
  end.

Definition receive (r : Response) (b : Browser) : Browser :=
  match set_cookie r with
  | Some c => mkBrowser (localStorage b) (sessionStorage b) c
  | None => b
  end.

(** ** [src/lib/api/client.ts] *)

Section Client.

(** [process.env.NEXT_PUBLIC_API_URL] *)
Variable NEXT_PUBLIC_API_URL : option string.

(** The backend and the network: the outcome of a [fetch], given the
    requests sent before it. *)
Variable backend : list Request -> Request -> FetchOutcome.

Definition API_URL : string :=
  match NEXT_PUBLIC_API_URL with
  | Some u => if truthy (JStr u) then u else "http://localhost:7300"
  | None => "http://localhost:7300"
  end.

Definition fetch (req : Request) : M Response :=
  fun w =>
    match backend (sent w) req with
    | NetworkError =>
        (Throw FetchFailed, mkWorld (window w) (sent w ++ [req]) (console w))
    | Responded r =>
        (Ok r, mkWorld (receive r <$> window w) (sent w ++ [req]) (console w))
    end.

Definition getAuthToken : M (option string) :=
  undef <- typeof_window_undefined ;;
  if undef then ret None
  else localStorage_getItem "auth_token".

Definition setAuthToken (token : JsVal) : M unit :=
  undef <- typeof_window_undefined ;;
  if undef then ret tt
  else localStorage_setItem "auth_token" (js_to_string token).

Definition clearAuthTokens : M unit :=
  undef <- typeof_window_undefined ;;
  if undef then ret tt
  else
    localStorage_removeItem "auth_token" ;;;
    localStorage_removeItem "refresh_token".

(** [string | undefined] given to [setItem] *)
Definition of_undefinable (o : option string) : JsVal :=
  match o with
  | Some s => JStr s
  | None => JUndefined
  end.

(** [cookies.find(cookie => cookie.trim().startsWith('csrf_token='))] *)
Definition find_csrf_cookie (cookies : list string) : option string :=
  List.find (fun cookie => startsWith (trim cookie) "csrf_token=") cookies.

Definition getCsrfToken : M (option string) :=
  undef <- typeof_window_undefined ;;
  if undef then ret None
  else
    stored <- sessionStorage_getItem "csrf_token" ;;
    if truthy (of_nullable stored) then ret stored
    else
      cookie_string <- document_cookie ;;
      let cookies := split ";" cookie_string in
      let csrfCookie := find_csrf_cookie cookies in
      match csrfCookie with
      | Some c =>
          if truthy (JStr c) then
            let token := split "=" c !! 1%nat in
            sessionStorage_setItem "csrf_token"
              (js_to_string (of_undefinable token)) ;;;
            ret token
          else ret None
      | None => ret None
      end.

Definition csrf_request (token : string) : Request :=
  mkRequest (API_URL +:+ "/api/v1/csrf-token") (Some "GET")
    {[ "Authorization" := "Bearer " +:+ token ]} None "include".

Definition ensureCsrfToken : M JsVal :=
  existingToken <- getCsrfToken ;;
  if truthy (of_nullable existingToken) then ret (of_nullable existingToken)
  else
    catch
      (token <- getAuthToken ;;
       match token with
       | Some t =>
           if negb (truthy (JStr t)) then ret JNull
           else
             response <- fetch (csrf_request t) ;;
             if ok response then
               data <- response_json response ;;
               csrf_token <- prop data "csrf_token" ;;
               if truthy csrf_token then
                 sessionStorage_setItem "csrf_token" (js_to_string csrf_token) ;;;
                 ret csrf_token
               else ret JNull
             else ret JNull
       | None => ret JNull
       end)
      (fun error => console_error "Failed to fetch CSRF token:" error ;;; ret JNull).

(** [options.method?.toUpperCase() || 'GET'] *)
Definition method_of (options : RequestInit) : string :=
  match init_method options with
  | Some m => if truthy (JStr (toUpperCase m)) then toUpperCase m else "GET"
  | None => "GET"
  end.

(** [['POST', 'PUT', 'DELETE', 'PATCH'].includes(method)] *)
Definition mutating (method : string) : bool :=
  existsb (String.eqb method) ["POST"; "PUT"; "DELETE"; "PATCH"].

(** [{ 'Content-Type': 'application/json', ...(options.headers || {}) }] *)
Definition base_headers (options : RequestInit) : gmap string string :=
  default ∅ (init_headers options) ∪ {[ "Content-Type" := "application/json" ]}.

(** [fetch(`${API_URL}${endpoint}`, { ...options, headers, credentials: 'include' })] *)
Definition api_request (endpoint : string) (options : RequestInit)
    (headers : gmap string string) : Request :=
  mkRequest (API_URL +:+ endpoint) (init_method options) headers
    (init_body options) "include".

(** [{ detail: `HTTP ${response.status}: ${response.statusText}` }] *)
Definition http_error (r : Response) : JsVal :=
  JObj [("detail", JStr ("HTTP " +:+ pretty (status r) +:+ ": " +:+ statusText r))].

(** [if (token) { headers['Authorization'] = `Bearer ${token}` }] *)
Definition auth_headers (options : RequestInit) (token : option string)
    : gmap string string :=
  match token with
  | Some t =>
      if truthy (JStr t)
      then <[ "Authorization" := "Bearer " +:+ t ]> (base_headers options)
      else base_headers options
  | None => base_headers options
  end.

(** Lines 96-122: the headers of the first attempt. *)
Definition request_headers (endpoint : string) (options : RequestInit)
    : M (gmap string string) :=
  token <- getAuthToken ;;
  let headers := auth_headers options token in
  let method := method_of options in
  if mutating method then
    csrfToken <- getCsrfToken ;;
    csrfToken <- (if negb (truthy (of_nullable csrfToken)) then ensureCsrfToken
                  else ret (of_nullable csrfToken)) ;;
    if truthy csrfToken then
      ret (<[ "X-CSRF-Token" := js_to_string csrfToken ]> headers)
    else
      console_warn "CSRF token not available for request:" endpoint ;;;
      ret headers
  else ret headers.

(** Lines 136-158: the recovery from a CSRF rejection.  [Some v] is the
    value returned from inside the branch, [None] falls through to the
    throw of the original error. *)
Definition csrf_retry (endpoint : string) (options : RequestInit)
    (headers : gmap string string) (response : Response) (errorData : JsVal)
    : M (option JsVal) :=
  is_csrf <-
    (if status response =? 403 then
       detail <- prop errorData "detail" ;;
       if truthy detail then of_option TypeError (js_includes detail "CSRF")
       else ret false
     else ret false) ;;
  if (is_csrf : bool) then
    newToken <- ensureCsrfToken ;;
    if truthy newToken && negb (String.eqb (method_of options) "GET") then
      let headers := <[ "X-CSRF-Token" := js_to_string newToken ]> headers in
      retryResponse <- fetch (api_request endpoint options headers) ;;
      if negb (ok retryResponse) then
        retryError <- catch (response_json retryResponse)
                            (fun _ => ret (http_error retryResponse)) ;;
        throw (Thrown retryError)
      else
        v <- response_json retryResponse ;;
        ret (Some v)
    else ret None
  else ret None.

Definition apiRequest (endpoint : string) (options : RequestInit) : M JsVal :=
  headers <- request_headers endpoint options ;;
  response <- fetch (api_request endpoint options headers) ;;
  if negb (ok response) then
    errorData <- catch (response_json response) (fun _ => ret (JObj [])) ;;
    retried <- csrf_retry endpoint options headers response errorData ;;
    match retried with
    | Some v => ret v
    | None =>
        detail <- prop errorData "detail" ;;
        throw (Thrown (if truthy detail then errorData else http_error response))
    end
  else
    let contentType := content_type response in
    if truthy (of_nullable contentType)
       && includes (default "" contentType) "application/json"
    then response_json response
    else
      let text := text response in
      if truthy (JStr text) then of_option SyntaxError (json response)
      else ret (JObj []).

(** ** [src/lib/api/auth.ts] *)

(** [login], imported by the store as [apiLogin] *)
Definition apiLogin (email password : string) : M JsVal :=
  response <- fetch
    (mkRequest (API_URL +:+ "/api/v1/auth/login") (Some "POST")
       {[ "Content-Type" := "application/json" ]}
       (Some (BodyJson (JObj [("email", JStr email); ("password", JStr password)])))
       "include") ;;
  if negb (ok response) then
    error <- catch (response_json response) (fun _ => ret (http_error response)) ;;
    throw (Thrown error)
  else
    data <- response_json response ;;
    access_token <- prop data "access_token" ;;
    setAuthToken access_token ;;;
    refresh_token <- prop data "refresh_token" ;;
    (if truthy refresh_token
     then localStorage_setItem "refresh_token" (js_to_string refresh_token)
     else ret tt) ;;;
    csrf_token <- prop data "csrf_token" ;;
    (if truthy csrf_token
     then sessionStorage_setItem "csrf_token" (js_to_string csrf_token)
     else ret tt) ;;;
    ret data.

Definition getCurrentUser : M JsVal :=
  apiRequest "/api/v1/users/me" (mkInit None None None).

(** [logout], imported by the store as [apiLogout] *)
Definition apiLogout : M unit := clearAuthTokens.

(** ** [src/store/authStore.ts] *)

Record AuthState : Type := mkAuth {
  user : JsVal;
  isAuthenticated : bool;
  isLoading : bool;
  error : JsVal
}.

Definition initial_state : AuthState := mkAuth JNull false false JNull.

(** Store actions run over the store's state and the world. *)
Definition Store (A : Type) : Type := ST (AuthState * World) A.

Definition lift {A} (m : M A) : Store A :=
  fun sw =>
    let (r, w') := m (snd sw) in (r, (fst sw, w')).

(** [set(partial)] *)
Definition set (f : AuthState -> AuthState) : Store unit :=
  fun sw => (Ok tt, (f (fst sw), snd sw)).

(** [error?.detail] on a caught exception; an [Error] instance has no
    [detail]. *)
Definition exn_detail (e : Exn) : JsVal :=
  match e with
  | Thrown v => default JUndefined (get_prop v "detail")
  | _ => JUndefined
  end.

Definition login (email password : string) : Store unit :=
  set (fun s => mkAuth (user s) (isAuthenticated s) true JNull) ;;;
  catch
    (response <- lift (apiLogin email password) ;;
     response_user <- prop response "user" ;;
     set (fun s => mkAuth response_user true false (error s)))
    (fun error =>
       let errorMessage :=
         if truthy (exn_detail error) then exn_detail error
         else JStr "Login failed" in
       set (fun s => mkAuth (user s) (isAuthenticated s) false errorMessage) ;;;
       throw error).

Definition logout : Store unit :=
  lift apiLogout ;;;
  set (fun s => mkAuth JNull false (isLoading s) JNull).

Definition fetchUser : Store unit :=
  catch
    (user <- lift getCurrentUser ;;
     is_admin <- prop user "is_admin" ;;
     if truthy is_admin then
       set (fun s => mkAuth user true (isLoading s) (error s))
     else
       lift apiLogout ;;;
       set (fun s => mkAuth JNull false (isLoading s) (error s)))
    (fun _ =>
       lift apiLogout ;;;
       set (fun s => mkAuth JNull false (isLoading s) (error s))).

Definition clearError : Store unit :=
  set (fun s => mkAuth (user s) (isAuthenticated s) (isLoading s) JNull).

(** ** The resolution of the CSRF token, as the client carries it out

    (a) the session-cached value; (b) what the look-up takes from the
    cookie string; (c) with a bearer token, the value the token-issuing
    endpoint returns; (d) none.  A value counts when it is a non-empty
    string. *)

Definition nonempty (o : option string) : option string :=
  match o with
  | Some s => if truthy (JStr s) then Some s else None
  | None => None
  end.

Definition cached_token (b : Browser) : option string :=
  nonempty (sessionStorage b !! "csrf_token").

(** the second [=]-separated segment of the first entry of the cookie
    string that starts with [csrf_token=] *)
Definition cookie_token (b : Browser) : option string :=
  nonempty (match find_csrf_cookie (split ";" (cookie b)) with
            | Some c => split "=" c !! 1%nat
            | None => None
            end).

Definition bearer_token (b : Browser) : option string :=
  nonempty (localStorage b !! "auth_token").

(** the [csrf_token] of a successful reply of the token-issuing endpoint *)
Definition issued_token (before : list Request) (bearer : string) : option JsVal :=
  match backend before (csrf_request bearer) with
  | NetworkError => None
  | Responded r =>
      if ok r then
        match json r with
        | Some data =>
            match get_prop data "csrf_token" with
            | Some v => if truthy v then Some v else None
            | None => None
            end
        | None => None
        end
      else None
  end.

Inductive Resolution : Type :=
| FromCache (t : string)
| FromCookie (t : string)
| FromEndpoint (bearer : string) (v : JsVal)
| NoToken (asked : option string).

Definition resolution (w : World) : Resolution :=
  match window w with
  | None => NoToken None
  | Some b =>
      match cached_token b with
      | Some t => FromCache t
      | None =>
          match cookie_token b with
          | Some t => FromCookie t
          | None =>
              match bearer_token b with
              | Some a =>
                  match issued_token (sent w) a with
                  | Some v => FromEndpoint a v
                  | None => NoToken (Some a)
                  end
              | None => NoToken None
              end
          end
      end
  end.

(** the cached copy of the CSRF token *)
Definition session_cache (w : World) : option string :=
  match window w with
  | Some b => sessionStorage b !! "csrf_token"
  | None => None
  end.

(** the stored bearer token *)
Definition stored_bearer (w : World) : option string :=
  match window w with
  | Some b => localStorage b !! "auth_token"
  | None => None
  end.

(** The browser after a look-up that found no usable token: a
    [csrf_token] cookie with an empty value has been copied to the cache. *)
Definition after_lookup (b : Browser) : Browser :=
  match find_csrf_cookie (split ";" (cookie b)) with
  | Some _ => set_session "csrf_token" "" b
  | None => b
  end.

Definition asked_requests (asked : option string) : list Request :=
  match asked with
  | Some a => [csrf_request a]
  | None => []
  end.

Definition fetch_error (e : Exn) : LogEntry :=
  Error "Failed to fetch CSRF token:" e.

Definition csrf_warning (endpoint : string) : LogEntry :=
  Warn "CSRF token not available for request:" endpoint.

(** What the resolution order demands of the headers [h] of the first
    attempt and of the world [w1] in which it is sent. *)
Definition resolved (endpoint : string) (options : RequestInit) (w : World)
    (h : gmap string string) (w1 : World) : Prop :=
  let hs := auth_headers options (stored_bearer w) in
  match resolution w with
  | FromCache t => h = <["X-CSRF-Token" := t]> hs /\ w1 = w
  | FromCookie t =>
      h = <["X-CSRF-Token" := t]> hs /\ sent w1 = sent w
      /\ console w1 = console w /\ session_cache w1 = Some t
  | FromEndpoint a v =>
      h = <["X-CSRF-Token" := js_to_string v]> hs
      /\ sent w1 = sent w ++ [csrf_request a]
      /\ console w1 = console w /\ session_cache w1 = Some (js_to_string v)
  | NoToken asked =>
      h = hs /\ sent w1 = sent w ++ asked_requests asked
      /\ (console w1 = console w ++ [csrf_warning endpoint]
          \/ exists e,
               console w1 = console w ++ [fetch_error e; csrf_warning endpoint])
  end.

(** At most one request to the token-issuing endpoint. *)
Definition token_fetch (l : list Request) : Prop :=
  l = [] \/ exists a, l = [csrf_request a].

(** Nothing, or one more attempt of the request. *)
Definition one_retry (endpoint : string) (options : RequestInit)
    (l : list Request) : Prop :=
  l = [] \/ exists h, l = [api_request endpoint options h].

End Client.

(** ** The users page: pagination *)

Definition limit : Z := 20.

(** [Math.ceil(total / limit)], in exact arithmetic *)
Definition totalPages (total : Z) : Z :=
  Qceiling (inject_Z total / inject_Z limit).

(** [disabled={page >= totalPages}] on the Next button *)
Definition next_disabled (page total : Z) : bool :=
  page >=? totalPages total.

(** ** Scenarios *)

(** the double quote *)
Definition dq : string := String "034" EmptyString.

(** [JSON.stringify(v)] for values whose strings need no escaping *)
Fixpoint render (v : JsVal) : string :=
  match v with
  | JUndefined => "undefined"
  | JNull => "null"
  | JBool true => "true"
  | JBool false => "false"
  | JNum n => pretty n
  | JStr s => dq +:+ s +:+ dq
  | JArr xs =>
      "[" +:+
      (fix items (l : list JsVal) : string :=
         match l with
         | [] => ""
         | x :: rest =>
             match rest with
             | [] => render x
             | _ :: _ => render x +:+ "," +:+ items rest
             end
         end) xs +:+ "]"
  | JObj fields =>
      "{" +:+
      (fix members (l : list (string * JsVal)) : string :=
         match l with
         | [] => ""
         | (k, x) :: rest =>
             match rest with
             | [] => dq +:+ k +:+ dq +:+ ":" +:+ render x
             | _ :: _ => dq +:+ k +:+ dq +:+ ":" +:+ render x +:+ "," +:+ members rest
             end
         end) fields +:+ "}"
  end.

(** a response with a JSON body *)
Definition json_reply (code : Z) (reason : string) (v : JsVal) : Response :=
  mkResponse code reason (Some "application/json") (render v) (Some v) None.

Definition no_env : option string := None.

Definition fresh_tab : World := mkWorld (Some (mkBrowser ∅ ∅ "")) [] [].

Definition signed_in : Browser :=
  mkBrowser {[ "auth_token" := "acc"; "refresh_token" := "ref" ]} ∅ "".

Definition opts_get : RequestInit := mkInit (Some "GET") None None.

Definition opts_post : RequestInit := mkInit (Some "POST") None (Some (BodyText "{}")).

Definition member : JsVal :=
  JObj [("id", JStr "u-17"); ("email", JStr "member@example.com");
        ("full_name", JStr "Regular Member"); ("is_admin", JBool false)].

Definition admin : JsVal :=
  JObj [("id", JStr "u-1"); ("email", JStr "root@example.com");
        ("full_name", JStr "Site Admin"); ("is_admin", JBool true)].

(** the backend accepts the credentials of a user who is no admin *)
Definition member_login : list Request -> Request -> FetchOutcome :=
  fun _ _ =>
    Responded (json_reply 200 "OK"
      (JObj [("access_token", JStr "acc"); ("refresh_token", JStr "ref");
             ("token_type", JStr "bearer"); ("csrf_token", JStr "csrf");
             ("user", member)])).

(** the backend answers every request with the record of that user *)
Definition member_profile : list Request -> Request -> FetchOutcome :=
  fun _ _ => Responded (json_reply 200 "OK" member).

(** a success with a plain-text body *)
Definition plain_ok : list Request -> Request -> FetchOutcome :=
  fun _ _ => Responded (mkResponse 200 "OK" (Some "text/plain") "OK" None None).

(** a success with a JSON content type and no body *)
Definition empty_json : list Request -> Request -> FetchOutcome :=
  fun _ _ =>
    Responded (mkResponse 200 "OK" (Some "application/json") "" None None).

Definition csrf_rejection : JsVal :=
  JObj [("detail", JStr "CSRF token missing or invalid")].

(** the backend issues [fresh] as CSRF token and rejects everything else
    as a CSRF failure *)
Definition rejecting : list Request -> Request -> FetchOutcome :=
  fun _ req =>
    if String.eqb (req_url req) "http://localhost:7300/api/v1/csrf-token"
    then Responded (json_reply 200 "OK" (JObj [("csrf_token", JStr "fresh")]))
    else Responded (json_reply 403 "Forbidden" csrf_rejection).

(** the backend rejects a request without the header, setting the cookie,
    and accepts one that carries it *)
Definition double_submit : list Request -> Request -> FetchOutcome :=
  fun _ req =>
    match req_headers req !! "X-CSRF-Token" with
    | Some _ => Responded (json_reply 200 "OK" (JObj [("banned", JBool true)]))
    | None =>
        Responded (mkResponse 403 "Forbidden" (Some "application/json")
                     (render csrf_rejection) (Some csrf_rejection)
                     (Some "csrf_token=fresh"))
    end.

(** an error whose [detail] is the empty string *)
Definition empty_detail : list Request -> Request -> FetchOutcome :=
  fun _ _ =>
    Responded (json_reply 400 "Bad Request" (JObj [("detail", JStr "")])).

Definition not_found : list Request -> Request -> FetchOutcome :=
  fun _ _ =>
    Responded (json_reply 404 "Not Found" (JObj [("detail", JStr "User not found")])).

(** nothing answers *)
Definition offline : list Request -> Request -> FetchOutcome :=
  fun _ _ => NetworkError.

(** a tab whose cookie value starts with [=] *)
Definition odd_cookie : World :=
  mkWorld (Some (mkBrowser ∅ ∅ "csrf_token==abc")) [] [].

(** a tab whose cookie value contains [=] *)
Definition padded_cookie : Browser :=
  mkBrowser ∅ ∅ "theme=dark; csrf_token=ab=cd".

(** the backend rejects the token [stale] as a CSRF failure, accepts any
    other, and issues [fresh] *)
Definition rotated : list Request -> Request -> FetchOutcome :=
  fun _ req =>
    if String.eqb (req_url req) "http://localhost:7300/api/v1/csrf-token"
    then Responded (json_reply 200 "OK" (JObj [("csrf_token", JStr "fresh")]))
    else
      match req_headers req !! "X-CSRF-Token" with
      | Some "stale" | None =>
          Responded (json_reply 403 "Forbidden" csrf_rejection)
      | Some _ => Responded (json_reply 200 "OK" (JObj [("banned", JBool true)]))
      end.

(** a signed-in tab whose cached CSRF token is out of date *)
Definition stale_tab : World :=
  mkWorld (Some (mkBrowser {[ "auth_token" := "acc" ]} {[ "csrf_token" := "stale" ]} ""))
    [] [].

(** an error whose body is the JSON value [null] *)
Definition null_body : list Request -> Request -> FetchOutcome :=
  fun _ _ =>
    Responded (json_reply 500 "Internal Server Error" JNull).

(** ** Frames and traces of a computation *)

(** [m] relates every state to the state it leaves, whether it returns or
    throws. *)
Definition preserves {S A : Type} (R : S -> S -> Prop) (m : ST S A) : Prop :=
  forall s, R s (snd (m s)).

(** the durable storage, when there is a browser *)
Definition local_store (w : World) : option (gmap string string) :=
  localStorage <$> window w.

Definition same_local (w w' : World) : Prop := local_store w' = local_store w.

(** the session storage apart from the cached CSRF token *)
Definition same_session_but_csrf (w w' : World) : Prop :=
  match window w, window w' with
  | Some b, Some b' =>
      delete "csrf_token" (sessionStorage b') = delete "csrf_token" (sessionStorage b)
  | None, None => True
  | _, _ => False
  end.

(** the network log and the console only grow *)
Definition grows (w w' : World) : Prop :=
  (exists l, sent w' = sent w ++ l) /\ (exists l, console w' = console w ++ l).

(** What a look-up of the CSRF token, a log entry or a [fetch] may change:
    the cached [csrf_token], the cookie, the network log, the console. *)
Definition kept (w w' : World) : Prop :=
  same_local w w' /\ same_session_but_csrf w w' /\ grows w w'.

(** ** More of [src/lib/api/auth.ts] *)

Section Auth.

Variable NEXT_PUBLIC_API_URL : option string.
Variable backend : list Request -> Request -> FetchOutcome.

(** the request that [login] of [auth.ts] sends *)
Definition login_request (email password : string) : Request :=
  mkRequest (API_URL NEXT_PUBLIC_API_URL +:+ "/api/v1/auth/login") (Some "POST")
    {[ "Content-Type" := "application/json" ]}
    (Some (BodyJson (JObj [("email", JStr email); ("password", JStr password)])))
    "include".

(** [fetchCsrfToken]: the whole body is inside [try], so that reading
    [localStorage] is, too; [`Bearer ${null}`] is [Bearer null]. *)
Definition fetchCsrfToken : M JsVal :=
  catch
    (auth_token <- localStorage_getItem "auth_token" ;;
     response <- fetch backend
       (mkRequest (API_URL NEXT_PUBLIC_API_URL +:+ "/api/v1/csrf-token") (Some "GET")
          {[ "Authorization" := "Bearer " +:+ js_to_string (of_nullable auth_token) ]}
          None "include") ;;
     if ok response then
       data <- response_json response ;;
       prop data "csrf_token"
     else ret JNull)
    (fun error => console_error "Failed to fetch CSRF token:" error ;;; ret JNull).

End Auth.

(** the session storage, when there is a browser *)
Definition session_store (w : World) : option (gmap string string) :=
  sessionStorage <$> window w.

(** an entry of the durable storage *)
Definition stored_local (k : string) (w : World) : option string :=
  match window w with
  | Some b => localStorage b !! k
  | None => None
  end.

(** Whether an outcome is the [ReferenceError] of touching a browser
    global where there is no [window]. *)
Definition reference_error {A} (r : Result A) : bool :=
  match r with
  | Throw ReferenceError => true
  | _ => false
  end.

(** Whenever [m] throws, the exception and the state it leaves satisfy
    [Q]. *)
Definition raises {S A : Type} (Q : Exn -> S -> Prop) (m : ST S A) : Prop :=
  forall s e s', m s = (Throw e, s') -> Q e s'.

Definition not_reference (e : Exn) : Prop :=
  match e with
  | ReferenceError => False
  | _ => True
  end.

(** When [e] is the failure of [fetch], the last request sent is an
    attempt of the request to [endpoint], and the network failed on it. *)
Definition offline_attempt (env : option string)
    (backend : list Request -> Request -> FetchOutcome)
    (endpoint : string) (options : RequestInit) (e : Exn) (w : World) : Prop :=
  e = FetchFailed ->
  exists before h,
    sent w = before ++ [api_request env endpoint options h]
    /\ backend before (api_request env endpoint options h) = NetworkError.

(** a signed-in tab whose cache holds a CSRF token *)
Definition working_tab : World :=
  mkWorld (Some (mkBrowser {[ "auth_token" := "acc" ]} {[ "csrf_token" := "tok" ]} ""))
    [] [].

(** a request that brings headers of its own *)
Definition opts_export : RequestInit :=
  mkInit (Some "post")
    (Some {[ "Accept" := "text/csv"; "Authorization" := "Basic abc";
             "Content-Type" := "text/plain" ]})
    (Some (BodyText "ids=1,2")).

(** ** What a sign-in stores

    [data.k] of a reply that is an object *)
Definition field (data : JsVal) (k : string) : JsVal :=
  default JUndefined (get_prop data k).

(** The browser after lines 43-52 of [auth.ts]: the bearer token always,
    the refresh token and the CSRF token when the reply has them. *)
Definition login_storage (data : JsVal) (b : Browser) : Browser :=
  let b1 := set_local "auth_token" (js_to_string (field data "access_token")) b in
  let b2 := if truthy (field data "refresh_token")
            then set_local "refresh_token" (js_to_string (field data "refresh_token")) b1
            else b1 in
  if truthy (field data "csrf_token")
  then set_session "csrf_token" (js_to_string (field data "csrf_token")) b2
  else b2.

(** the backend turns the credentials down *)
Definition wrong_password : list Request -> Request -> FetchOutcome :=
  fun _ _ =>
    Responded (json_reply 401 "Unauthorized"
                 (JObj [("detail", JStr "Incorrect email or password")])).

(** the backend answers every request with the record of the admin *)
Definition admin_profile : list Request -> Request -> FetchOutcome :=
  fun _ _ => Responded (json_reply 200 "OK" admin).

(** ** The admin layout ([AdminLayoutClient])

    The state of the component: [isAdmin] ([null] at first), [loading],
    and the paths given to [router.push], oldest first. *)
Record Layout : Type := mkLayout {
  isAdmin : option bool;
  loading : bool;
  pushed : list string
}.

Definition initial_layout : Layout := mkLayout None true [].

(** The component runs over its state, the store and the world. *)
Definition Shell (A : Type) : Type := ST (Layout * (AuthState * World)) A.

Definition in_store {A} (m : Store A) : Shell A :=
  fun s => let (r, sw) := m (snd s) in (r, (fst s, sw)).

Definition set_layout (f : Layout -> Layout) : Shell unit :=
  fun s => (Ok tt, (f (fst s), snd s)).

(** [router.push(path)] *)
Definition router_push (path : string) : Shell unit :=
  set_layout (fun l => mkLayout (isAdmin l) (loading l) (pushed l ++ [path])).

Definition setLoading (v : bool) : Shell unit :=
  set_layout (fun l => mkLayout (isAdmin l) v (pushed l)).

Definition setIsAdmin (v : bool) : Shell unit :=
  set_layout (fun l => mkLayout (Some v) (loading l) (pushed l)).

(** [useAuthStore.getState().user] *)
Definition getState_user : Shell JsVal :=
  fun s => (Ok (user (fst (snd s))), s).

(** [try { m } finally { f }]; a [return] inside [m] ends [m]. *)
Definition finally {S A} (m : ST S A) (f : ST S unit) : ST S A :=
  fun s =>
    let (r, s1) := m s in
    match f s1 with
    | (Ok _, s2) => (r, s2)
    | (Throw e, s2) => (Throw e, s2)
    end.

Section LayoutClient.

Variable NEXT_PUBLIC_API_URL : option string.
Variable backend : list Request -> Request -> FetchOutcome.

Definition checkAdmin (pathname : string) : Shell unit :=
  if String.eqb pathname "/login" then setLoading false
  else
    token <- in_store (lift (localStorage_getItem "auth_token")) ;;
    if negb (truthy (of_nullable token)) then router_push "/login"
    else
      finally
        (catch
           (in_store (fetchUser NEXT_PUBLIC_API_URL backend) ;;;
            currentUser <- getState_user ;;
            not_admin <-
              (if negb (truthy currentUser) then ret true
               else
                 is_admin <- prop currentUser "is_admin" ;;
                 ret (negb (truthy is_admin))) ;;
            if (not_admin : bool) then router_push "/login"
            else setIsAdmin true)
           (fun _ => router_push "/login"))
        (setLoading false).

End LayoutClient.

Definition handleLogout : Shell unit :=
  in_store logout ;;;
  router_push "/login".

(** What the layout renders: the children alone on the login page, the
    spinner while [loading] or while [isAdmin] is [null], the admin pages
    otherwise. *)
Inductive View : Type :=
| LoginPage
| Spinner
| AdminPages.

Definition view (pathname : string) (l : Layout) : View :=
  if String.eqb pathname "/login" then LoginPage
  else if loading l || match isAdmin l with None => true | Some _ => false end
       then Spinner
       else AdminPages.

(** [u] is a record whose [is_admin] is truthy *)
Definition is_admin_user (u : JsVal) : Prop :=
  exists flag, get_prop u "is_admin" = Some flag /\ truthy flag = true.

(** ** The users page: the footer (lines 527-556)

    [skip] is the offset asked of the backend; the footer reads
    [Showing first_shown to last_shown of total] and is rendered when
    [total > 0]. *)
Definition skip (page : Z) : Z := (page - 1) * limit.

Definition first_shown (page : Z) : Z := (page - 1) * limit + 1.

Definition last_shown (page total : Z) : Z := Z.min (page * limit) total.

Definition footer_shown (total : Z) : bool := total >? 0.

(** the Previous button: [setPage(p => Math.max(1, p - 1))], disabled when
    [page === 1] *)
Definition previous_page (p : Z) : Z := Z.max 1 (p - 1).

Definition previous_disabled (page : Z) : bool := page =? 1.

(** the Next button: [setPage(p => p + 1)] *)
Definition next_page (p : Z) : Z := p + 1.

(** The audit-log and page-visit pages: the Previous button is
    [setPage(page - 1)]. *)
Definition previous_page_unclamped (page : Z) : Z := page - 1.

(** ** [src/components/ui/Toast.tsx]: the toast store

    The module-level variables [toastIdCounter], [toasts] and
    [toastListeners].  A listener is the closure a mounted
    [useToastState] creates; it is known here by the number of its mount,
    and [states] holds the React state each one last set. *)
Module ToastStore.

Inductive ToastType : Type :=
| success
| error
| info
| warning.

Record Toast : Type := mkToast {
  toast_id : string;
  message : string;
  type : ToastType;
  duration : Z
}.

Record Toasts : Type := mkToasts {
  toastIdCounter : Z;
  toasts : list Toast;
  toastListeners : list nat;
  states : gmap nat (list Toast);
  mounts : nat
}.

Definition initial : Toasts := mkToasts 0 [] [] ∅ 0.

(** [toastListeners.forEach((listener) => listener([...toasts]))] *)
Definition notifyListeners (st : Toasts) : Toasts :=
  mkToasts (toastIdCounter st) (toasts st) (toastListeners st)
    (foldl (fun m listener => <[listener := toasts st]> m) (states st)
       (toastListeners st))
    (mounts st).

(** The body shared by [showToast] and the four functions of [toast]. *)
Definition add (message : string) (type : ToastType) (duration : Z)
    (st : Toasts) : Toasts :=
  let counter := toastIdCounter st + 1 in
  let id := "toast-" +:+ pretty counter in
  notifyListeners
    (mkToasts counter (toasts st ++ [mkToast id message type duration])
       (toastListeners st) (states st) (mounts st)).

(** [showToast(message, type = 'info', duration = 5000)] *)
Definition showToast (message : string) (type : option ToastType)
    (duration : option Z) : Toasts -> Toasts :=
  add message (default info type) (default 5000 duration).

(** [toast.success(message, duration?)], with [duration ?? 5000], and its
    siblings *)
Definition toast_success (message : string) (duration : option Z) :=
  add message success (default 5000 duration).

Definition toast_error (message : string) (duration : option Z) :=
  add message error (default 7000 duration).

Definition toast_info (message : string) (duration : option Z) :=
  add message info (default 5000 duration).

Definition toast_warning (message : string) (duration : option Z) :=
  add message warning (default 6000 duration).

(** [toasts = toasts.filter((t) => t.id !== id)] *)
Definition removeToast (id : string) (st : Toasts) : Toasts :=
  notifyListeners
    (mkToasts (toastIdCounter st)
       (List.filter (fun t => negb (String.eqb (toast_id t) id)) (toasts st))
       (toastListeners st) (states st) (mounts st)).

(** The effect of [useToastState]: [toastListeners.push(listener)], then
    [setState([...toasts])]. *)
Definition mount (st : Toasts) : Toasts :=
  let listener := mounts st in
  mkToasts (toastIdCounter st) (toasts st) (toastListeners st ++ [listener])
    (<[listener := toasts st]> (states st)) (S (mounts st)).

(** [indexOf] and [splice(index, 1)] *)
Fixpoint remove_first (listener : nat) (ls : list nat) : list nat :=
  match ls with
  | [] => []
  | l :: rest => if Nat.eqb listener l then rest else l :: remove_first listener rest
  end.

(** the clean-up of the effect *)
Definition unmount (listener : nat) (st : Toasts) : Toasts :=
  mkToasts (toastIdCounter st) (toasts st)
    (remove_first listener (toastListeners st)) (states st) (mounts st).

(** What the pages do to the store. *)
Inductive Action : Type :=
| CallShowToast (message : string) (type : option ToastType) (duration : option Z)
| CallSuccess (message : string) (duration : option Z)
| CallError (message : string) (duration : option Z)
| CallInfo (message : string) (duration : option Z)
| CallWarning (message : string) (duration : option Z)
| CallRemoveToast (id : string)
| Mount
| Unmount (listener : nat).

Definition step (st : Toasts) (a : Action) : Toasts :=
  match a with
  | CallShowToast m t d => showToast m t d st
  | CallSuccess m d => toast_success m d st
  | CallError m d => toast_error m d st
  | CallInfo m d => toast_info m d st
  | CallWarning m d => toast_warning m d st
  | CallRemoveToast id => removeToast id st
  | Mount => mount st
  | Unmount l => unmount l st
  end.

Definition after (actions : list Action) : Toasts := foldl step initial actions.

Definition shows (a : Action) : bool :=
  match a with
  | CallRemoveToast _ | Mount | Unmount _ => false
  | _ => true
  end.

(** Every toast carries an id issued so far. *)
Definition issued (st : Toasts) : Prop :=
  Forall (fun t => exists n, 1 <= n <= toastIdCounter st
                             /\ toast_id t = "toast-" +:+ pretty n) (toasts st).

(** Every subscribed listener has been given the current toasts. *)
Definition notified (st : Toasts) : Prop :=
  Forall (fun listener => states st !! listener = Some (toasts st))
    (toastListeners st).

End ToastStore.

(** ** [formatRelativeTime] of the date utilities

    [Date_getTime s] is [new Date(s).getTime()] in milliseconds, [None]
    for an invalid date, whose time is [NaN]; [now] is
    [new Date().getTime()]; [formatDateTime] is the sibling function, which
    formats through [Intl]. *)
Section RelativeTime.

Variable Date_getTime : string -> option Z.
Variable now : Z.
Variable formatDateTime : string -> string.

(** [`${n} unit${n !== 1 ? 's' : ''} ago`] *)
Definition ago (n : Z) (unit : string) : string :=
  pretty n +:+ " " +:+ unit +:+ (if negb (n =? 1) then "s" else "") +:+ " ago".

(** With [NaN] every comparison is false, which leads to the last
    branch. *)
Definition formatRelativeTime (dateString : option string) : string :=
  if negb (truthy (of_nullable dateString)) then "N/A"
  else
    let s := default "" dateString in
    match Date_getTime s with
    | None => formatDateTime s
    | Some date =>
        let diffMs := now - date in
        let diffSeconds := diffMs / 1000 in
        let diffMinutes := diffSeconds / 60 in
        let diffHours := diffMinutes / 60 in
        let diffDays := diffHours / 24 in
        if diffSeconds <? 60 then "Just now"
        else if diffMinutes <? 60 then ago diffMinutes "minute"
        else if diffHours <? 24 then ago diffHours "hour"
        else if diffDays <? 7 then ago diffDays "day"
        else formatDateTime s
    end.

End RelativeTime.

(** a clock for the examples: the date strings are epoch milliseconds *)
Definition epoch_ms (s : string) : option Z :=
  if String.eqb s "5400000" then Some 5400000 else None.

(** ** The resolution order, word for word

    The cookies of [document.cookie] are [name=value] pairs separated by
    [;]; blanks before a name do not count, and the value of a cookie is
    all that follows the first [=]. *)

(** the text before the first [sep], all of [s] when there is none *)
Fixpoint before_first (sep : ascii) (s : string) : string :=
  match s with
  | EmptyString => EmptyString
  | String c s' =>
      if Ascii.eqb c sep then EmptyString else String c (before_first sep s')
  end.

(** the text after the first [sep] *)
Fixpoint after_first (sep : ascii) (s : string) : option string :=
  match s with
  | EmptyString => None
  | String c s' => if Ascii.eqb c sep then Some s' else after_first sep s'
  end.

Definition cookie_pair (entry : string) : option (string * string) :=
  let e := trimStart entry in
  match after_first "=" e with
  | Some v => Some (before_first "=" e, v)
  | None => None
  end.

Fixpoint cookie_lookup (name : string) (entries : list string) : option string :=
  match entries with
  | [] => None
  | entry :: rest =>
      match cookie_pair entry with
      | Some (n, v) => if String.eqb n name then Some v else cookie_lookup name rest
      | None => cookie_lookup name rest
      end
  end.

(** the value of the first cookie called [name] *)
Definition cookie_value (name cookie : string) : option string :=
  cookie_lookup name (split ";" cookie).

(** The value of the [csrf_token] cookie, if there is one, has no [=] in
    it. *)
Definition plain_cookie (w : World) : Prop :=
  forall b v, window w = Some b ->
    cookie_value "csrf_token" (cookie b) = Some v -> after_first "=" v = None.

(** No stored value is the empty string. *)
Definition no_empty_value (w : World) : Prop :=
  forall b, window w = Some b ->
    sessionStorage b !! "csrf_token" <> Some ""
    /\ cookie_value "csrf_token" (cookie b) <> Some ""
    /\ localStorage b !! "auth_token" <> Some "".

Section Worded.

Variable NEXT_PUBLIC_API_URL : option string.
Variable backend : list Request -> Request -> FetchOutcome.

(** (a) the session-cached value if present; (b) otherwise the value of
    the [csrf_token] cookie; (c) otherwise, if and only if a bearer token
    is present, the [csrf_token] that the token-issuing endpoint returns;
    (d) otherwise none. *)
Definition resolution_as_worded (w : World) : Resolution :=
  match window w with
  | None => NoToken None
  | Some b =>
      match sessionStorage b !! "csrf_token" with
      | Some t => FromCache t
      | None =>
          match cookie_value "csrf_token" (cookie b) with
          | Some t => FromCookie t
          | None =>
              match localStorage b !! "auth_token" with
              | Some a =>
                  match issued_token NEXT_PUBLIC_API_URL backend (sent w) a with
                  | Some v => FromEndpoint a v
                  | None => NoToken (Some a)
                  end
              | None => NoToken None
              end
          end
      end
  end.

(** The same order, where a value is present when it is not the empty
    string. *)
Definition resolution_nonempty (w : World) : Resolution :=
  match window w with
  | None => NoToken None
  | Some b =>
      match nonempty (sessionStorage b !! "csrf_token") with
      | Some t => FromCache t
      | None =>
          match nonempty (cookie_value "csrf_token" (cookie b)) with
          | Some t => FromCookie t
          | None =>
              match nonempty (localStorage b !! "auth_token") with
              | Some a =>
                  match issued_token NEXT_PUBLIC_API_URL backend (sent w) a with
                  | Some v => FromEndpoint a v
                  | None => NoToken (Some a)
                  end
              | None => NoToken None
              end
          end
      end
  end.

(** What the resolution [res] demands of the headers [h] of the first
    attempt and of the world [w1] in which it is sent: the token attached,
    the copy cached, and the requests sent to obtain it. *)
Definition resolved_as (res : Resolution) (endpoint : string)
    (options : RequestInit) (w : World) (h : gmap string string) (w1 : World)
    : Prop :=
  let hs := auth_headers options (stored_bearer w) in
  match res with
  | FromCache t => h = <["X-CSRF-Token" := t]> hs /\ w1 = w
  | FromCookie t =>
      h = <["X-CSRF-Token" := t]> hs /\ sent w1 = sent w
      /\ console w1 = console w /\ session_cache w1 = Some t
  | FromEndpoint a v =>
      h = <["X-CSRF-Token" := js_to_string v]> hs
      /\ sent w1 = sent w ++ [csrf_request NEXT_PUBLIC_API_URL a]
      /\ console w1 = console w /\ session_cache w1 = Some (js_to_string v)
  | NoToken asked =>
      h = hs /\ sent w1 = sent w ++ asked_requests NEXT_PUBLIC_API_URL asked
      /\ (console w1 = console w ++ [csrf_warning endpoint]
          \/ exists e,
               console w1 = console w ++ [fetch_error e; csrf_warning endpoint])
  end.

End Worded.

(** [tok] is a fresh token for the request that was rejected with the
    headers [h] and left the world [w]: no token is cached in [w], so that
    [tok] has to be obtained anew, and [tok] is not the token that the
    rejected attempt carried. *)
Definition fresh_token (h : gmap string string) (w : World) (tok : JsVal) : Prop :=
  nonempty (session_cache w) = None
  /\ h !! "X-CSRF-Token" <> Some (js_to_string tok).

(** a tab with the cookie of the backend and nothing cached *)
Definition cookie_tab : World :=
  mkWorld (Some (mkBrowser {[ "auth_token" := "acc" ]} ∅
                   "theme=dark; csrf_token=tok")) [] [].

(** a signed-in tab whose [csrf_token] cookie has the empty value *)
Definition empty_cookie_tab : World :=
  mkWorld (Some (mkBrowser {[ "auth_token" := "acc" ]} ∅ "csrf_token=")) [] [].

(** a tab whose cache holds the empty string, next to the cookie *)
Definition empty_cache_tab : World :=
  mkWorld (Some (mkBrowser ∅ {[ "csrf_token" := "" ]} "csrf_token=tok")) [] [].

(** a tab whose bearer token is the empty string *)
Definition empty_bearer_tab : World :=
  mkWorld (Some (mkBrowser {[ "auth_token" := "" ]} ∅ "")) [] [].

(** a tab whose cookie carries a padded token *)
Definition padded_tab : World :=
  mkWorld (Some (mkBrowser ∅ ∅ "csrf_token=YWJjZA==")) [] [].

(** * Properties *)

(** Evaluation of the monadic code, one layer at a time. *)
Ltac run :=
  cbv delta [response_json prop of_option];
  cbn [bind ret throw catch lift set
       typeof_window_undefined read_browser write_browser
       localStorage_getItem localStorage_setItem localStorage_removeItem
       sessionStorage_getItem sessionStorage_setItem document_cookie
       console_warn console_error
       window sent console fst snd negb andb orb
       fmap option_fmap option_map of_nullable of_undefinable].

(** Case analysis on the innermost scrutinee the goal is stuck on. *)
Ltac case_step :=
  match goal with
  | |- context [match ?x with _ => _ end] =>
      lazymatch x with
      | context [match _ with _ => _ end] => fail
      | _ => destruct x eqn:?
      end
  end.

(** ** Strings *)

Lemma prefix_app p s : String.prefix p s = true -> exists v, s = p +:+ v.
Proof.
  revert s. induction p as [|a p IH]; intros s H.
  - exists s. reflexivity.
  - destruct s as [|c s]; [discriminate|]. simpl in H.
    destruct (ascii_dec a c) as [->|]; [|discriminate].
    destruct (IH _ H) as [v ->]. exists v. reflexivity.
Qed.

Lemma trimEnd_prefix p s :
  String.prefix p (trimEnd s) = true -> String.prefix p s = true.
Proof.
  revert p. induction s as [|c s IH]; intros p H; [exact H|].
  destruct p as [|a p]; [reflexivity|]. simpl in *.
  destruct (trimEnd s) as [|c' t] eqn:E.
  - destruct (is_whitespace c); [discriminate|]. simpl in H.
    destruct (ascii_dec a c); [|discriminate].
    destruct p; [destruct s; reflexivity | discriminate].
  - simpl in H. destruct (ascii_dec a c); [|discriminate]. apply IH, H.
Qed.

Lemma split_nonempty sep s : split sep s <> [].
Proof.
  destruct s as [|c s]; simpl; [discriminate|].
  destruct (Ascii.eqb c sep); [discriminate|].
  destruct (split sep s); discriminate.
Qed.

Lemma split_skip sep c s :
  Ascii.eqb c sep = false ->
  split sep (String c s) !! 1%nat = split sep s !! 1%nat.
Proof.
  intros H. simpl. rewrite H.
  destruct (split sep s) eqn:E; [|reflexivity].
  destruct (split_nonempty _ _ E).
Qed.

(** Leading blanks stay in the first segment. *)
Lemma split_trimStart s :
  split "=" s !! 1%nat = split "=" (trimStart s) !! 1%nat.
Proof.
  induction s as [|c s IH]; [reflexivity|]. simpl trimStart.
  destruct (is_whitespace c) eqn:W; [|reflexivity].
  rewrite split_skip; [exact IH|].
  destruct (Ascii.eqb c "=") eqn:E; [|reflexivity].
  apply Ascii.eqb_eq in E. subst c. discriminate W.
Qed.

Lemma split_csrf_cookie v :
  split "=" ("csrf_token=" +:+ v) !! 1%nat = head (split "=" v).
Proof.
  cbv [String.app]. simpl. destruct (split "=" v); reflexivity.
Qed.

Lemma split_until_sep v1 v2 :
  includes v1 "=" = false ->
  head (split "=" (v1 +:+ "=" +:+ v2)) = Some v1.
Proof.
  induction v1 as [|c v1 IH]; intros H; [reflexivity|].
  cbn [includes String.prefix] in H.
  destruct (ascii_dec "=" c) as [E|E].
  { destruct v1; discriminate H. }
  cbn [orb] in H. specialize (IH H).
  change (String c v1 +:+ "=" +:+ v2) with (String c (v1 +:+ "=" +:+ v2)).
  cbn [split].
  destruct (Ascii.eqb_spec c "="%char) as [->|_]; [contradiction|].
  destruct (split "=" (v1 +:+ "=" +:+ v2)); [discriminate|].
  injection IH as ->. reflexivity.
Qed.

Lemma csrf_cookie_value c :
  startsWith (trim c) "csrf_token=" = true ->
  exists v, trimStart c = "csrf_token=" +:+ v
            /\ split "=" c !! 1%nat = head (split "=" v).
Proof.
  intros H. apply trimEnd_prefix, prefix_app in H as [v Hv].
  exists v. split; [exact Hv|].
  rewrite split_trimStart, Hv. apply split_csrf_cookie.
Qed.

(** The cookie that [find] returns has a second segment, so [token] is
    never [undefined]. *)
Lemma find_csrf_cookie_token cs c :
  find_csrf_cookie cs = Some c -> exists t, split "=" c !! 1%nat = Some t.
Proof.
  intros H. apply find_some in H as [_ H].
  destruct (csrf_cookie_value _ H) as (v & _ & ->).
  destruct (split "=" v) eqn:E; [destruct (split_nonempty _ _ E)|].
  eexists. reflexivity.
Qed.

Lemma find_csrf_cookie_nonempty cs c :
  find_csrf_cookie cs = Some c -> truthy (JStr c) = true.
Proof.
  intros H. apply find_some in H as [_ H].
  destruct c; [discriminate H | reflexivity].
Qed.

Lemma includes_nonempty s needle :
  includes s needle = true -> needle <> "" -> truthy (JStr s) = true.
Proof.
  destruct s; [|reflexivity]. destruct needle; [congruence|discriminate].
Qed.

(** ** Truthiness of a [string | null] *)

Lemma nonempty_truthy o :
  truthy (of_nullable o) = match nonempty o with Some _ => true | None => false end.
Proof. destruct o as [s|]; [|reflexivity]. simpl. destruct (negb _); reflexivity. Qed.

Lemma nonempty_Some o t :
  nonempty o = Some t -> o = Some t /\ truthy (JStr t) = true.
Proof.
  destruct o as [s|]; [|discriminate]. unfold nonempty.
  destruct (truthy (JStr s)) eqn:E; [|discriminate]. intros [= <-]. auto.
Qed.

Lemma nonempty_None_Some t : nonempty (Some t) = None -> t = "".
Proof.
  simpl. destruct (String.eqb t "") eqn:E; [|discriminate].
  intros _. apply String.eqb_eq, E.
Qed.

(** ** The look-up of a cached or cookie token leaves the rest alone *)

Lemma after_lookup_cached b :
  cached_token b = None -> cached_token (after_lookup b) = None.
Proof.
  unfold after_lookup. destruct (find_csrf_cookie _); [|done].
  intros _. unfold cached_token. simpl. rewrite lookup_insert_eq. reflexivity.
Qed.

Lemma after_lookup_cookie b : cookie_token (after_lookup b) = cookie_token b.
Proof. unfold after_lookup. destruct (find_csrf_cookie _); reflexivity. Qed.

Lemma after_lookup_local b : localStorage (after_lookup b) = localStorage b.
Proof. unfold after_lookup. destruct (find_csrf_cookie _); reflexivity. Qed.

Lemma after_lookup_idem b : after_lookup (after_lookup b) = after_lookup b.
Proof.
  unfold after_lookup.
  destruct (find_csrf_cookie (split ";" (cookie b))) eqn:F; simpl.
  - rewrite F. unfold set_session. simpl. rewrite insert_insert_eq. reflexivity.
  - rewrite F. reflexivity.
Qed.

(** ** The cookie look-up against the cookie's value *)

Lemma head_split_before sep v :
  head (split sep v) = Some (before_first sep v).
Proof.
  induction v as [|c v IH]; [reflexivity|]. cbn [split before_first].
  destruct (Ascii.eqb c sep); [reflexivity|].
  destruct (split sep v) as [|seg segs]; [discriminate IH|].
  cbn in *. injection IH as ->. reflexivity.
Qed.

Lemma after_first_decompose s v :
  after_first "=" s = Some v -> s = before_first "=" s +:+ "=" +:+ v.
Proof.
  induction s as [|c s IH]; [discriminate|]. cbn [after_first before_first].
  destruct (Ascii.eqb_spec c "="%char) as [->|_].
  - intros [= ->]. reflexivity.
  - intros H. rewrite (IH H) at 1. reflexivity.
Qed.

Lemma before_first_plain sep v :
  after_first sep v = None -> before_first sep v = v.
Proof.
  induction v as [|c v IH]; [reflexivity|]. cbn [after_first before_first].
  destruct (Ascii.eqb c sep); [discriminate|]. intros H. rewrite (IH H).
  reflexivity.
Qed.

Lemma trimEnd_keeps_prefix p s :
  trimEnd p = p -> String.prefix p s = true -> String.prefix p (trimEnd s) = true.
Proof.
  revert p. induction s as [|c s IH]; intros p Hp H; [exact H|].
  destruct p as [|a p]; [destruct (trimEnd (String c s)); reflexivity|].
  cbn [String.prefix] in H.
  destruct (ascii_dec a c) as [->|]; [|discriminate].
  cbn [trimEnd] in Hp |- *.
  destruct p as [|a' p'].
  - cbn in Hp. destruct (is_whitespace c); [discriminate|].
    destruct (trimEnd s); cbn; destruct (ascii_dec c c); congruence.
  - assert (Hp' : trimEnd (String a' p') = String a' p').
    { destruct (trimEnd (String a' p')) eqn:E.
      - destruct (is_whitespace c); discriminate.
      - congruence. }
    specialize (IH _ Hp' H).
    destruct (trimEnd s) as [|c' t]; [discriminate IH|].
    cbn [String.prefix]. destruct (ascii_dec c c); [exact IH | congruence].
Qed.

Lemma cookie_pair_csrf entry v :
  trimStart entry = "csrf_token=" +:+ v ->
  cookie_pair entry = Some ("csrf_token", v).
Proof. intros H. unfold cookie_pair. rewrite H. reflexivity. Qed.

Lemma cookie_pair_named entry v :
  cookie_pair entry = Some ("csrf_token", v) ->
  startsWith (trim entry) "csrf_token=" = true.
Proof.
  unfold cookie_pair, startsWith, trim. cbv zeta.
  destruct (after_first "=" (trimStart entry)) as [v'|] eqn:E; [|discriminate].
  intros [= Hn ->]. apply after_first_decompose in E. rewrite Hn in E.
  apply trimEnd_keeps_prefix; [reflexivity|]. rewrite E.
  destruct v; reflexivity.
Qed.

(** What [find] and [split('=')[1]] give is the value of the first cookie
    called [csrf_token], cut at its first [=]. *)
Lemma cookie_lookup_find cs :
  match find_csrf_cookie cs with
  | Some c => split "=" c !! 1%nat
  | None => None
  end = before_first "=" <$> cookie_lookup "csrf_token" cs.
Proof.
  unfold find_csrf_cookie.
  induction cs as [|entry cs IH]; [reflexivity|]. cbn [List.find cookie_lookup].
  destruct (startsWith (trim entry) "csrf_token=") eqn:S.
  - destruct (csrf_cookie_value _ S) as (v & Hv & ->).
    rewrite (cookie_pair_csrf _ _ Hv). cbn. apply head_split_before.
  - rewrite IH. destruct (cookie_pair entry) as [[n v]|] eqn:P; [|reflexivity].
    destruct (String.eqb_spec n "csrf_token") as [->|_]; [|reflexivity].
    apply cookie_pair_named in P. congruence.
Qed.

Lemma cookie_token_worded b :
  cookie_token b
  = nonempty (before_first "=" <$> cookie_value "csrf_token" (cookie b)).
Proof.
  unfold cookie_token, cookie_value. rewrite cookie_lookup_find. reflexivity.
Qed.

(** ** Pagination *)

Lemma totalPages_eq total : totalPages total = - ((- total) / 20).
Proof.
  unfold totalPages, Qceiling, Qfloor, limit. cbn.
  rewrite Z.mul_1_r. reflexivity.
Qed.

Lemma totalPages_ceiling total :
  (totalPages total - 1) * limit < total <= totalPages total * limit.
Proof. rewrite totalPages_eq. unfold limit. Z.div_mod_to_equations. lia. Qed.

(** C8.  With [limit = 20] a total of 57 gives 3 pages, and the Next
    button is disabled exactly from page 3 on.  In general [totalPages] is
    the ceiling of [total / limit], the least number of pages that hold
    [total] rows, and Next is disabled exactly when [page >= totalPages],
    that is when the pages shown so far hold all rows. *)
Theorem users_page_pagination :
  totalPages 57 = 3
  /\ (forall page, next_disabled page 57 = true <-> page >= 3)
  /\ (forall total,
        (totalPages total - 1) * limit < total <= totalPages total * limit)
  /\ (forall page total,
        next_disabled page total = true <-> page >= totalPages total)
  /\ (forall page total,
        next_disabled page total = true <-> total <= page * limit).
Proof.
  split; [reflexivity|]. split; [|split; [|split]].
  - intros page. unfold next_disabled. change (totalPages 57) with 3. lia.
  - apply totalPages_ceiling.
  - intros page total. unfold next_disabled. lia.
  - intros page total. unfold next_disabled.
    pose proof (totalPages_ceiling total). unfold limit in *. lia.
Qed.


(** ** The request pipeline *)

Create HintDb pipeline.

Section Pipeline.

Variable env : option string.
Variable backend : list Request -> Request -> FetchOutcome.

Lemma token_fetch_none : token_fetch env [].
Proof. left. reflexivity. Qed.

Lemma token_fetch_one a : token_fetch env [csrf_request env a].
Proof. right. exists a. reflexivity. Qed.

Lemma one_retry_none endpoint options : one_retry env endpoint options [].
Proof. left. reflexivity. Qed.

Lemma one_retry_one endpoint options h :
  one_retry env endpoint options [api_request env endpoint options h].
Proof. right. exists h. reflexivity. Qed.

#[local] Hint Resolve token_fetch_none token_fetch_one one_retry_none one_retry_one
  : pipeline.

(** *** Reading the tokens *)

Lemma getAuthToken_eq w : getAuthToken w = (Ok (stored_bearer w), w).
Proof.
  unfold getAuthToken, typeof_window_undefined, localStorage_getItem,
    read_browser, stored_bearer, bind.
  destruct (window w) eqn:E; simpl; rewrite ?E; reflexivity.
Qed.

Lemma getCsrfToken_server snt con :
  getCsrfToken (mkWorld None snt con) = (Ok None, mkWorld None snt con).
Proof. reflexivity. Qed.

Lemma getCsrfToken_browser b snt con :
  getCsrfToken (mkWorld (Some b) snt con) =
  match cached_token b with
  | Some t => (Ok (Some t), mkWorld (Some b) snt con)
  | None =>
      match find_csrf_cookie (split ";" (cookie b)) with
      | Some c =>
          (Ok (split "=" c !! 1%nat),
           mkWorld (Some (set_session "csrf_token"
                      (js_to_string (of_undefinable (split "=" c !! 1%nat))) b))
             snt con)
      | None => (Ok None, mkWorld (Some b) snt con)
      end
  end.
Proof.
  unfold getCsrfToken, typeof_window_undefined, sessionStorage_getItem,
    document_cookie, sessionStorage_setItem, read_browser, write_browser,
    bind, ret, cached_token.
  cbn [window sent console].
  rewrite nonempty_truthy.
  destruct (nonempty (sessionStorage b !! "csrf_token")) as [t|] eqn:E.
  - apply nonempty_Some in E as [-> _]. reflexivity.
  - cbn [window sent console].
    destruct (find_csrf_cookie _) as [c|] eqn:F; [|reflexivity].
    rewrite (find_csrf_cookie_nonempty _ _ F). reflexivity.
Qed.

Lemma getCsrfToken_cached b snt con t :
  cached_token b = Some t ->
  getCsrfToken (mkWorld (Some b) snt con)
  = (Ok (Some t), mkWorld (Some b) snt con).
Proof. intros H. rewrite getCsrfToken_browser, H. reflexivity. Qed.

Lemma getCsrfToken_cookie b snt con t :
  cached_token b = None -> cookie_token b = Some t ->
  getCsrfToken (mkWorld (Some b) snt con)
  = (Ok (Some t), mkWorld (Some (set_session "csrf_token" t b)) snt con).
Proof.
  intros H1 H2. rewrite getCsrfToken_browser, H1.
  unfold cookie_token in H2.
  destruct (find_csrf_cookie _) as [c|]; [|discriminate].
  apply nonempty_Some in H2 as [-> _]. reflexivity.
Qed.

Lemma getCsrfToken_nothing b snt con :
  cached_token b = None -> cookie_token b = None ->
  exists o, getCsrfToken (mkWorld (Some b) snt con)
            = (Ok o, mkWorld (Some (after_lookup b)) snt con)
            /\ truthy (of_nullable o) = false.
Proof.
  intros H1 H2. rewrite getCsrfToken_browser, H1.
  unfold cookie_token in H2. unfold after_lookup.
  destruct (find_csrf_cookie _) as [c|] eqn:F.
  - destruct (find_csrf_cookie_token _ _ F) as [t Ht]. rewrite Ht in *.
    apply nonempty_None_Some in H2. subst t. eexists. split; reflexivity.
  - exists None. split; reflexivity.
Qed.

(** *** [ensureCsrfToken] *)

Lemma ensureCsrfToken_server snt con :
  ensureCsrfToken env backend (mkWorld None snt con)
  = (Ok JNull, mkWorld None snt con).
Proof. reflexivity. Qed.

Lemma ensureCsrfToken_cached b snt con t :
  cached_token b = Some t ->
  ensureCsrfToken env backend (mkWorld (Some b) snt con)
  = (Ok (JStr t), mkWorld (Some b) snt con).
Proof.
  intros H. unfold ensureCsrfToken, bind.
  rewrite (getCsrfToken_cached _ _ _ _ H).
  apply nonempty_Some in H as [_ H]. cbn [of_nullable]. rewrite H. reflexivity.
Qed.

Lemma ensureCsrfToken_cookie b snt con t :
  cached_token b = None -> cookie_token b = Some t ->
  ensureCsrfToken env backend (mkWorld (Some b) snt con)
  = (Ok (JStr t), mkWorld (Some (set_session "csrf_token" t b)) snt con).
Proof.
  intros H1 H2. unfold ensureCsrfToken, bind.
  rewrite (getCsrfToken_cookie _ _ _ _ H1 H2).
  apply nonempty_Some in H2 as [_ H2]. cbn [of_nullable]. rewrite H2. reflexivity.
Qed.

(** With neither cache nor cookie, the outcome is that of the request to
    the token-issuing endpoint. *)
Lemma ensureCsrfToken_endpoint b snt con :
  cached_token b = None -> cookie_token b = None ->
  ensureCsrfToken env backend (mkWorld (Some b) snt con) =
  match bearer_token b with
  | None => (Ok JNull, mkWorld (Some (after_lookup b)) snt con)
  | Some a =>
      let snt' := snt ++ [csrf_request env a] in
      match backend snt (csrf_request env a) with
      | NetworkError =>
          (Ok JNull,
           mkWorld (Some (after_lookup b)) snt' (con ++ [fetch_error FetchFailed]))
      | Responded r =>
          let b1 := receive r (after_lookup b) in
          if ok r then
            match json r with
            | Some data =>
                match get_prop data "csrf_token" with
                | Some v =>
                    if truthy v
                    then (Ok v,
                          mkWorld (Some (set_session "csrf_token" (js_to_string v) b1))
                            snt' con)
                    else (Ok JNull, mkWorld (Some b1) snt' con)
                | None =>
                    (Ok JNull, mkWorld (Some b1) snt' (con ++ [fetch_error TypeError]))
                end
            | None =>
                (Ok JNull, mkWorld (Some b1) snt' (con ++ [fetch_error SyntaxError]))
            end
          else (Ok JNull, mkWorld (Some b1) snt' con)
      end
  end.
Proof.
  intros H1 H2. unfold ensureCsrfToken. unfold bind at 1.
  destruct (getCsrfToken_nothing b snt con H1 H2) as (o & -> & ->).
  unfold catch, bind. rewrite getAuthToken_eq.
  unfold bearer_token. rewrite <- (after_lookup_local b).
  cbn [stored_bearer window].
  destruct (localStorage (after_lookup b) !! "auth_token") as [a|]; [|reflexivity].
  cbn [nonempty]. destruct (truthy (JStr a)); [|reflexivity].
  run. unfold fetch. run.
  destruct (backend snt (csrf_request env a)) as [|r]; [reflexivity|].
  run. destruct (ok r); [|reflexivity].
  destruct (json r) as [data|]; [|reflexivity].
  run. destruct (get_prop data "csrf_token") as [v|]; [|reflexivity].
  run. destruct (truthy v); reflexivity.
Qed.

(** [ensureCsrfToken] never throws; it sends at most the one request to
    the token-issuing endpoint. *)
Lemma ensureCsrfToken_total w :
  exists v w' mid errs,
    ensureCsrfToken env backend w = (Ok v, w')
    /\ sent w' = sent w ++ mid /\ token_fetch env mid
    /\ console w' = console w ++ errs.
Proof.
  destruct w as [[b|] snt con].
  2:{ rewrite ensureCsrfToken_server. exists JNull, (mkWorld None snt con), [], [].
      cbn. rewrite !app_nil_r. auto with pipeline. }
  destruct (cached_token b) as [t|] eqn:C.
  { rewrite (ensureCsrfToken_cached _ _ _ _ C). do 2 eexists. exists [], [].
    cbn. rewrite !app_nil_r. auto with pipeline. }
  destruct (cookie_token b) as [t|] eqn:K.
  { rewrite (ensureCsrfToken_cookie _ _ _ _ C K). do 2 eexists. exists [], [].
    cbn. rewrite !app_nil_r. auto with pipeline. }
  rewrite (ensureCsrfToken_endpoint _ _ _ C K).
  destruct (bearer_token b) as [a|].
  2:{ do 2 eexists. exists [], []. cbn. rewrite !app_nil_r. auto with pipeline. }
  cbn zeta.
  destruct (backend snt (csrf_request env a)) as [|r].
  { do 2 eexists. exists [csrf_request env a], [fetch_error FetchFailed]. cbn.
    auto with pipeline. }
  destruct (ok r).
  2:{ do 2 eexists. exists [csrf_request env a], []. cbn. rewrite app_nil_r.
      auto with pipeline. }
  destruct (json r) as [data|].
  2:{ do 2 eexists. exists [csrf_request env a], [fetch_error SyntaxError]. cbn.
      auto with pipeline. }
  destruct (get_prop data "csrf_token") as [v|].
  2:{ do 2 eexists. exists [csrf_request env a], [fetch_error TypeError]. cbn.
      auto with pipeline. }
  destruct (truthy v); do 2 eexists; exists [csrf_request env a], [];
    cbn; rewrite app_nil_r; auto with pipeline.
Qed.

(** *** The headers of the first attempt *)

Lemma request_headers_plain endpoint options w :
  mutating (method_of options) = false ->
  request_headers env backend endpoint options w
  = (Ok (auth_headers options (stored_bearer w)), w).
Proof.
  intros H. unfold request_headers, bind. rewrite getAuthToken_eq, H. reflexivity.
Qed.

Lemma request_headers_resolved endpoint options w :
  mutating (method_of options) = true ->
  exists h w1,
    request_headers env backend endpoint options w = (Ok h, w1)
    /\ resolved env backend endpoint options w h w1.
Proof.
  intros Hm. unfold request_headers, resolved, resolution. unfold bind at 1.
  rewrite getAuthToken_eq, Hm. unfold bind at 1.
  destruct w as [[b|] snt con]; cbn [window sent console stored_bearer].
  2:{ rewrite getCsrfToken_server. run. unfold bind at 1.
      rewrite ensureCsrfToken_server. run.
      do 2 eexists. split; [reflexivity|]. cbn. rewrite app_nil_r. auto. }
  destruct (cached_token b) as [t|] eqn:C.
  { rewrite (getCsrfToken_cached _ _ _ _ C). run.
    apply nonempty_Some in C as [_ C]. rewrite C. run. rewrite C.
    do 2 eexists. split; [reflexivity|]. auto. }
  destruct (cookie_token b) as [t|] eqn:K.
  { rewrite (getCsrfToken_cookie _ _ _ _ C K). run.
    apply nonempty_Some in K as [_ K]. rewrite K. run. rewrite K.
    do 2 eexists. split; [reflexivity|]. cbn. rewrite lookup_insert_eq. auto. }
  destruct (getCsrfToken_nothing b snt con C K) as (o & -> & ->). run.
  unfold bind at 1.
  rewrite ensureCsrfToken_endpoint
    by (rewrite ?after_lookup_cookie; auto using after_lookup_cached).
  rewrite after_lookup_idem.
  replace (bearer_token (after_lookup b)) with (bearer_token b)
    by (unfold bearer_token; rewrite after_lookup_local; reflexivity).
  destruct (bearer_token b) as [a|] eqn:B.
  2:{ run. do 2 eexists. split; [reflexivity|]. cbn. rewrite app_nil_r. auto. }
  unfold issued_token. cbn zeta.
  destruct (backend snt (csrf_request env a)) as [|r].
  { run. do 2 eexists. split; [reflexivity|]. cbn. rewrite <- app_assoc. eauto. }
  destruct (ok r).
  2:{ run. do 2 eexists. split; [reflexivity|]. cbn. auto. }
  destruct (json r) as [data|].
  2:{ run. do 2 eexists. split; [reflexivity|]. cbn. rewrite <- app_assoc. eauto. }
  destruct (get_prop data "csrf_token") as [v|].
  2:{ run. do 2 eexists. split; [reflexivity|]. cbn. rewrite <- app_assoc. eauto. }
  destruct (truthy v) eqn:T.
  - run. rewrite T. do 2 eexists. split; [reflexivity|]. cbn.
    rewrite lookup_insert_eq. auto.
  - run. do 2 eexists. split; [reflexivity|]. cbn. auto.
Qed.

Lemma request_headers_sent endpoint options w :
  exists h w1 pre,
    request_headers env backend endpoint options w = (Ok h, w1)
    /\ sent w1 = sent w ++ pre /\ token_fetch env pre.
Proof.
  destruct (mutating (method_of options)) eqn:Hm.
  2:{ rewrite (request_headers_plain endpoint options w Hm).
      do 2 eexists. exists []. rewrite app_nil_r. auto with pipeline. }
  destruct (request_headers_resolved endpoint options w Hm)
    as (h & w1 & -> & Hr).
  exists h, w1. unfold resolved in Hr.
  destruct (resolution env backend w) as [t|t|a v|[a|]].
  - destruct Hr as (_ & ->). exists []. rewrite app_nil_r. auto with pipeline.
  - destruct Hr as (_ & -> & _). exists []. rewrite app_nil_r. auto with pipeline.
  - destruct Hr as (_ & -> & _). eexists. auto with pipeline.
  - destruct Hr as (_ & -> & _). eexists. cbn. auto with pipeline.
  - destruct Hr as (_ & -> & _). eexists. cbn. auto with pipeline.
Qed.

Lemma auth_headers_csrf options token :
  auth_headers options token !! "X-CSRF-Token"
  = default ∅ (init_headers options) !! "X-CSRF-Token".
Proof.
  assert (Hb : base_headers options !! "X-CSRF-Token"
               = default ∅ (init_headers options) !! "X-CSRF-Token").
  { unfold base_headers. rewrite lookup_union, lookup_singleton_ne by discriminate.
    destruct (default ∅ (init_headers options) !! "X-CSRF-Token"); reflexivity. }
  unfold auth_headers. destruct token as [t|]; [|exact Hb].
  destruct (truthy (JStr t)); [|exact Hb].
  rewrite lookup_insert_ne by discriminate. exact Hb.
Qed.

(** *** What goes on the wire *)

Lemma trace_here {A} (res : Result A) endpoint options w :
  exists res' w' mid retry errs,
    (res, w) = (res', w')
    /\ sent w' = sent w ++ mid ++ retry
    /\ token_fetch env mid /\ one_retry env endpoint options retry
    /\ console w' = console w ++ errs.
Proof.
  exists res, w, [], [], []. cbn. rewrite !app_nil_r. auto 6 with pipeline.
Qed.

Lemma csrf_retry_trace endpoint options h r errorData w2 :
  exists res w3 mid retry errs,
    csrf_retry env backend endpoint options h r errorData w2 = (res, w3)
    /\ sent w3 = sent w2 ++ mid ++ retry
    /\ token_fetch env mid /\ one_retry env endpoint options retry
    /\ console w3 = console w2 ++ errs.
Proof.
  unfold csrf_retry. unfold bind at 1.
  destruct (status r =? 403); run; [|apply trace_here].
  destruct (get_prop errorData "detail") as [d|]; run; [|apply trace_here].
  destruct (truthy d); run; [|apply trace_here].
  destruct (js_includes d "CSRF") as [[|]|]; run; try apply trace_here.
  unfold bind at 1.
  destruct (ensureCsrfToken_total w2) as (v & w3 & mid & errs & -> & Hs & Ht & Hc).
  destruct (truthy v && negb (method_of options =? "GET")%string).
  2:{ do 2 eexists. exists mid, [], errs. split; [reflexivity|].
      rewrite app_nil_r. auto with pipeline. }
  unfold bind at 1, fetch.
  set (req := api_request env endpoint options _).
  assert (Hq : one_retry env endpoint options [req]) by apply one_retry_one.
  destruct (backend (sent w3) req) as [|r2].
  { do 2 eexists. exists mid, [req], errs. split; [reflexivity|].
    cbn. rewrite Hs, Hc, <- app_assoc. auto. }
  destruct (ok r2); cbn [negb]; unfold catch; run;
    destruct (json r2); run;
    do 2 eexists; exists mid, [req], errs; (split; [reflexivity|]);
    cbn; rewrite Hs, Hc, <- app_assoc; auto.
Qed.

(** After the headers are built the request is sent, then at most one
    token fetch and at most one retry follow. *)
Lemma apiRequest_trace endpoint options w h w1 :
  request_headers env backend endpoint options w = (Ok h, w1) ->
  exists res w' mid retry errs,
    apiRequest env backend endpoint options w = (res, w')
    /\ sent w' = sent w1 ++ api_request env endpoint options h :: mid ++ retry
    /\ token_fetch env mid /\ one_retry env endpoint options retry
    /\ console w' = console w1 ++ errs.
Proof.
  intros H.
  unfold apiRequest. unfold bind at 1. rewrite H. unfold bind at 1.
  unfold fetch at 1.
  set (req := api_request env endpoint options h).
  destruct (backend (sent w1) req) as [|r].
  { do 2 eexists. exists [], [], []. split; [reflexivity|].
    cbn. rewrite app_nil_r. auto with pipeline. }
  set (w2 := mkWorld (receive r <$> window w1) (sent w1 ++ [req]) (console w1)).
  assert (Hdone : forall res : Result JsVal, exists res' w' mid retry errs,
            (res, w2) = (res', w')
            /\ sent w' = sent w1 ++ req :: mid ++ retry
            /\ token_fetch env mid /\ one_retry env endpoint options retry
            /\ console w' = console w1 ++ errs).
  { intros res. do 2 eexists. exists [], [], []. split; [reflexivity|].
    cbn. rewrite app_nil_r. auto with pipeline. }
  destruct (ok r) eqn:Hok; cbn [negb].
  { repeat (run; case_step); run; apply Hdone. }
  unfold catch, bind at 1. run.
  set (errorData := default (JObj []) (json r)).
  replace (let (r0, w'0) :=
             match json r with
             | Some a => ret a
             | None => throw SyntaxError
             end w2 in
           match r0 with
           | Ok a => (Ok a, w'0)
           | Throw _ => ret (JObj []) w'0
           end) with (Ok errorData, w2)
    by (subst errorData; destruct (json r); reflexivity).
  unfold bind at 1.
  destruct (csrf_retry_trace endpoint options h r errorData w2)
    as (res & w3 & mid & retry & errs & -> & Hs & Ht & Ho & Hc).
  assert (Hfin : forall res : Result JsVal, exists res' w' mid retry errs,
            (res, w3) = (res', w')
            /\ sent w' = sent w1 ++ req :: mid ++ retry
            /\ token_fetch env mid /\ one_retry env endpoint options retry
            /\ console w' = console w1 ++ errs).
  { intros res'. do 2 eexists. exists mid, retry, errs. split; [reflexivity|].
    rewrite Hs, Hc. cbn. rewrite <- app_assoc. auto. }
  destruct res as [[v|]|e]; run; try apply Hfin.
  destruct (get_prop errorData "detail"); run; apply Hfin.
Qed.

Lemma apiRequest_first_send endpoint options w h w1 :
  request_headers env backend endpoint options w = (Ok h, w1) ->
  exists rest errs,
    sent (snd (apiRequest env backend endpoint options w))
    = sent w1 ++ api_request env endpoint options h :: rest
    /\ console (snd (apiRequest env backend endpoint options w))
       = console w1 ++ errs.
Proof.
  intros H.
  destruct (apiRequest_trace endpoint options w h w1 H)
    as (res & w' & mid & retry & errs & -> & Hs & _ & _ & Hc).
  exists (mid ++ retry), errs. auto.
Qed.

Lemma forbidden_not_ok r : status r = 403 -> ok r = false.
Proof. intros H. unfold ok. rewrite H. reflexivity. Qed.

Lemma apiLogout_clears w :
  exists w', apiLogout w = (Ok tt, w')
    /\ sent w' = sent w /\ console w' = console w
    /\ stored_bearer w' = None
    /\ (forall b, window w' = Some b ->
          localStorage b !! "auth_token" = None
          /\ localStorage b !! "refresh_token" = None).
Proof.
  destruct w as [[b|] snt con]; eexists; (split; [reflexivity|]); cbn.
  - repeat split.
    + rewrite lookup_delete_ne by discriminate. apply lookup_delete_eq.
    + injection H as <-. cbn. rewrite lookup_delete_ne by discriminate.
      apply lookup_delete_eq.
    + injection H as <-. cbn. apply lookup_delete_eq.
  - repeat split; discriminate.
Qed.

(** *** Success bodies and the login action *)

(** [login] never looks at [is_admin]: whenever the login request
    succeeds, the store ends authenticated as the returned [user]. *)
Lemma login_success_authenticates email password s w data w1 u :
  apiLogin env backend email password w = (Ok data, w1) ->
  get_prop data "user" = Some u ->
  login env backend email password (s, w)
  = (Ok tt, (mkAuth u true false JNull, w1)).
Proof.
  intros Hl Hu. unfold login, catch. run. unfold bind.
  unfold lift. cbn [fst snd]. rewrite Hl. run. rewrite Hu. reflexivity.
Qed.

(** A 2xx response whose body is a JSON document is parsed and returned,
    under any content type, given that the empty text is not JSON. *)
Lemma success_body_parsed endpoint options w h w1 r w2 v :
  request_headers env backend endpoint options w = (Ok h, w1) ->
  fetch backend (api_request env endpoint options h) w1 = (Ok r, w2) ->
  ok r = true ->
  json r = Some v ->
  text r <> "" ->
  apiRequest env backend endpoint options w = (Ok v, w2).
Proof.
  intros Hh Hf Hok Hj Ht.
  unfold apiRequest. unfold bind at 1. rewrite Hh.
  unfold bind at 1. rewrite Hf, Hok. cbn [negb].
  destruct (_ && _); run; rewrite Hj; [reflexivity|].
  cbn [truthy]. destruct (String.eqb_spec (text r) ""); [contradiction|reflexivity].
Qed.

(** A 2xx response with an empty body and no JSON content type gives
    the empty object. *)
Lemma empty_success_body endpoint options w h w1 r w2 :
  request_headers env backend endpoint options w = (Ok h, w1) ->
  fetch backend (api_request env endpoint options h) w1 = (Ok r, w2) ->
  ok r = true ->
  text r = "" ->
  includes (default "" (content_type r)) "application/json" = false ->
  apiRequest env backend endpoint options w = (Ok (JObj []), w2).
Proof.
  intros Hh Hf Hok Ht Hc.
  unfold apiRequest. unfold bind at 1. rewrite Hh.
  unfold bind at 1. rewrite Hf, Hok, Hc, Ht, andb_false_r. reflexivity.
Qed.

(** A 2xx response whose body is not a JSON document makes the call
    throw, unless the body is empty and the content type is not JSON. *)
Lemma non_json_success_body endpoint options w h w1 r w2 :
  request_headers env backend endpoint options w = (Ok h, w1) ->
  fetch backend (api_request env endpoint options h) w1 = (Ok r, w2) ->
  ok r = true ->
  json r = None ->
  truthy (of_nullable (content_type r))
  && includes (default "" (content_type r)) "application/json" = true
  \/ text r <> "" ->
  apiRequest env backend endpoint options w = (Throw SyntaxError, w2).
Proof.
  intros Hh Hf Hok Hj Hc.
  unfold apiRequest. unfold bind at 1. rewrite Hh.
  unfold bind at 1. rewrite Hf, Hok. cbn [negb].
  destruct (_ && _); run; rewrite Hj; [reflexivity|].
  destruct Hc as [Hc|Hc]; [discriminate|].
  cbn [truthy]. destruct (String.eqb_spec (text r) ""); [contradiction|reflexivity].
Qed.

(** *** The specified properties of the pipeline *)

Lemma nonempty_present o : o <> Some "" -> nonempty o = o.
Proof.
  destruct o as [t|]; [|reflexivity]. intros H. cbn.
  destruct (String.eqb_spec t ""); [congruence | reflexivity].
Qed.

(** Unless the cookie's value has an [=] in it, the client's resolution is
    the order of the specification with present read as not empty. *)
Lemma resolution_nonempty_eq w :
  plain_cookie w -> resolution_nonempty env backend w = resolution env backend w.
Proof.
  intros Hp. unfold resolution_nonempty, resolution.
  destruct (window w) as [b|] eqn:Hw; [|reflexivity].
  unfold cached_token, bearer_token. rewrite cookie_token_worded.
  destruct (cookie_value "csrf_token" (cookie b)) as [v|] eqn:E; [|reflexivity].
  cbn [fmap option_fmap option_map].
  rewrite (before_first_plain _ _ (Hp b v Hw E)). reflexivity.
Qed.

Lemma resolution_worded_eq w :
  no_empty_value w ->
  resolution_nonempty env backend w = resolution_as_worded env backend w.
Proof.
  intros Hn. unfold resolution_nonempty, resolution_as_worded.
  destruct (window w) as [b|] eqn:Hw; [|reflexivity].
  destruct (Hn b Hw) as (H1 & H2 & H3).
  rewrite !nonempty_present by assumption. reflexivity.
Qed.

(** C6, as amended.  Let the value of the [csrf_token] cookie, if there is
    one, have no [=] in it.  For a mutating request the [X-CSRF-Token] of
    the first attempt is then resolved in this order: the session-cached
    value if it is not empty; else the value of the [csrf_token] cookie if
    it is not empty, which is written to the cache; else, exactly when a
    non-empty bearer token is stored, one GET with that bearer token to the
    token-issuing endpoint, whose [csrf_token] is cached and attached; else
    the request goes out with the headers built so far.  Where no stored
    value is the empty string this is the order as the specification
    words it.  [h] is the header set of the first attempt and [w1] the
    world it is sent in. *)
Theorem csrf_token_resolution_order endpoint options w :
  mutating (method_of options) = true ->
  plain_cookie w ->
  exists h w1 rest,
    request_headers env backend endpoint options w = (Ok h, w1)
    /\ resolved_as env (resolution_nonempty env backend w) endpoint options w h w1
    /\ (no_empty_value w ->
          resolution_nonempty env backend w = resolution_as_worded env backend w)
    /\ sent (snd (apiRequest env backend endpoint options w))
       = sent w1 ++ api_request env endpoint options h :: rest.
Proof.
  intros Hm Hp.
  destruct (request_headers_resolved endpoint options w Hm)
    as (h & w1 & Hh & Hres).
  destruct (apiRequest_first_send endpoint options w h w1 Hh) as (rest & _ & Hs & _).
  exists h, w1, rest. split; [exact Hh|]. split.
  - rewrite (resolution_nonempty_eq w Hp). exact Hres.
  - split; [apply resolution_worded_eq | exact Hs].
Qed.

(** C5.  A mutating request is never dropped: whatever the token
    resolution gives, the request goes on the wire, after at most one
    request to the token-issuing endpoint.  When neither the cache, nor
    the cookie, nor that endpoint yields a token, it goes out with the
    headers built from the caller's options and the bearer token, to which
    the client adds no [X-CSRF-Token], and the warning is on the console. *)
Theorem request_without_token_still_sent endpoint options w :
  mutating (method_of options) = true ->
  let hs := auth_headers options (stored_bearer w) in
  let w' := snd (apiRequest env backend endpoint options w) in
  (exists pre h rest,
     sent w' = sent w ++ pre ++ api_request env endpoint options h :: rest
     /\ token_fetch env pre)
  /\ (forall asked,
        resolution env backend w = NoToken asked ->
        (exists rest,
           sent w' = sent w ++ asked_requests env asked
                       ++ api_request env endpoint options hs :: rest)
        /\ hs !! "X-CSRF-Token"
           = default ∅ (init_headers options) !! "X-CSRF-Token"
        /\ In (csrf_warning endpoint) (console w')).
Proof.
  intros Hm hs w'.
  destruct (request_headers_resolved endpoint options w Hm)
    as (h & w1 & Hh & Hr).
  destruct (apiRequest_first_send endpoint options w h w1 Hh)
    as (rest & errs & Hs' & Hc').
  split.
  - destruct (request_headers_sent endpoint options w)
      as (h' & w1' & pre & Hh' & Hs & Hp).
    rewrite Hh in Hh'. injection Hh' as <- <-.
    exists pre, h, rest. subst w'. rewrite Hs', Hs, <- app_assoc. auto.
  - intros asked Hres.
    unfold resolved in Hr. rewrite Hres in Hr. destruct Hr as (-> & Hs & Hc).
    subst w'. split; [|split].
    + exists rest. rewrite Hs', Hs, <- app_assoc. reflexivity.
    + apply auth_headers_csrf.
    + rewrite Hc'. apply in_or_app. left.
      destruct Hc as [-> | [e ->]]; apply in_or_app; right; simpl; auto.
Qed.

(** C2, as amended.  Whatever happens, a call puts the request on the wire
    once or twice, next to at most one token fetch before each attempt.
    When the first response is a 403 whose JSON body has a string [detail]
    containing [CSRF], [ensureCsrfToken] yields a fresh token [tok] (none
    is cached when the rejection arrives, and [tok] is not the token that
    the rejected attempt carried) and the method is not GET, the request
    is sent once more, with the new token [tok] as [X-CSRF-Token], so that
    the retry differs from the rejected attempt, and that is the last
    request: a retry response that is not 2xx is thrown (its JSON body,
    else the synthesized error), a 2xx JSON body is returned. *)
Theorem csrf_rejection_retry_policy endpoint options w h w1 :
  request_headers env backend endpoint options w = (Ok h, w1) ->
  let final := apiRequest env backend endpoint options w in
  (exists pre mid retry,
     sent (snd final)
     = sent w ++ pre ++ api_request env endpoint options h :: mid ++ retry
     /\ token_fetch env pre /\ token_fetch env mid
     /\ one_retry env endpoint options retry)
  /\ (forall r w2 errorData d tok w3,
        fetch backend (api_request env endpoint options h) w1 = (Ok r, w2) ->
        status r = 403 ->
        json r = Some errorData ->
        get_prop errorData "detail" = Some (JStr d) ->
        includes d "CSRF" = true ->
        ensureCsrfToken env backend w2 = (Ok tok, w3) ->
        truthy tok = true ->
        fresh_token h w2 tok ->
        method_of options <> "GET" ->
        let retry := api_request env endpoint options
                       (<["X-CSRF-Token" := js_to_string tok]> h) in
        retry <> api_request env endpoint options h
        /\ (exists mid, sent w3 = sent w1 ++ api_request env endpoint options h :: mid
                        /\ token_fetch env mid)
        /\ sent (snd final) = sent w3 ++ [retry]
        /\ (forall r2, backend (sent w3) retry = Responded r2 -> ok r2 = false ->
              fst final = Throw (Thrown (default (http_error r2) (json r2))))
        /\ (forall r2 v, backend (sent w3) retry = Responded r2 -> ok r2 = true ->
              json r2 = Some v -> fst final = Ok v)).
Proof.
  intros Hh final. split.
  - destruct (request_headers_sent endpoint options w)
      as (h' & w1' & pre & Hh' & Hs & Hp).
    rewrite Hh in Hh'. injection Hh' as <- <-.
    destruct (apiRequest_trace endpoint options w h w1 Hh)
      as (res & w' & mid & retry & errs & Hf & Hs' & Hm & Hr & _).
    exists pre, mid, retry. subst final. rewrite Hf. cbn [snd].
    rewrite Hs', Hs, <- app_assoc. auto.
  - intros r w2 errorData d tok w3 Hf Hst Hj Hd Hi He Ht Hnew Hg retry.
    assert (Hw2 : sent w2 = sent w1 ++ [api_request env endpoint options h]).
    { unfold fetch in Hf. destruct (backend (sent w1) _); [discriminate|].
      injection Hf as _ <-. reflexivity. }
    destruct (ensureCsrfToken_total w2)
      as (tok' & w3' & mid & errs & He' & Hs3 & Hm & _).
    rewrite He in He'. injection He' as <- <-.
    assert (Hfinal : final =
      (match backend (sent w3) retry with
       | NetworkError => Throw FetchFailed
       | Responded r2 =>
           if ok r2 then match json r2 with
                         | Some v => Ok v
                         | None => Throw SyntaxError
                         end
           else Throw (Thrown (default (http_error r2) (json r2)))
       end, snd (fetch backend retry w3))).
    { subst final. unfold apiRequest. unfold bind at 1. rewrite Hh.
      unfold bind at 1. rewrite Hf. rewrite (forbidden_not_ok r Hst). cbn [negb].
      unfold bind at 1, catch. run. rewrite Hj. run.
      unfold bind at 1, csrf_retry. unfold bind at 1.
      rewrite Hst. cbn [Z.eqb Pos.eqb]. run. rewrite Hd. run.
      rewrite (includes_nonempty d "CSRF" Hi) by discriminate.
      cbn [js_includes]. rewrite Hi. run.
      unfold bind at 1. rewrite He, Ht.
      destruct (String.eqb_spec (method_of options) "GET") as [E|_]; [contradiction|].
      run. unfold bind at 1. fold retry. unfold fetch.
      destruct (backend (sent w3) retry) as [|r2]; [reflexivity|].
      destruct (ok r2); run; unfold catch; run; destruct (json r2); reflexivity. }
    split; [|split; [|split; [|split]]].
    + intros E. apply (proj2 Hnew). apply (f_equal req_headers) in E.
      cbn [retry api_request req_headers] in E. rewrite <- E.
      apply lookup_insert_eq.
    + exists mid. rewrite Hs3, Hw2, <- app_assoc. auto.
    + rewrite Hfinal. cbn [snd]. unfold fetch.
      destruct (backend (sent w3) retry); reflexivity.
    + intros r2 Hb Hok. rewrite Hfinal, Hb, Hok. reflexivity.
    + intros r2 v Hb Hok Hv. rewrite Hfinal, Hb, Hok, Hv. reflexivity.
Qed.

(** C3, as amended.  Let the first response be not 2xx, its body not the
    JSON value [null], and let it be no CSRF rejection: the status is not
    403, or [detail] is missing or empty, or [detail] is a string or an
    array without [CSRF].  Then nothing more is sent and the call throws
    an object whose [detail] is the backend's when that is non-empty, and
    [HTTP <status>: <statusText>] otherwise, be it that the body does not
    parse, has no [detail] or has an empty one. *)
Theorem error_response_surfaced endpoint options w h w1 r w2 d :
  request_headers env backend endpoint options w = (Ok h, w1) ->
  fetch backend (api_request env endpoint options h) w1 = (Ok r, w2) ->
  ok r = false ->
  get_prop (default (JObj []) (json r)) "detail" = Some d ->
  (status r <> 403 \/ truthy d = false \/ js_includes d "CSRF" = Some false) ->
  let thrown := if truthy d then default (JObj []) (json r) else http_error r in
  apiRequest env backend endpoint options w = (Throw (Thrown thrown), w2)
  /\ sent w2 = sent w1 ++ [api_request env endpoint options h]
  /\ get_prop thrown "detail"
     = Some (if truthy d then d
             else JStr ("HTTP " +:+ pretty (status r) +:+ ": " +:+ statusText r)).
Proof.
  intros Hh Hf Hok Hd Hcase thrown. split; [|split].
  - unfold apiRequest. unfold bind at 1. rewrite Hh.
    unfold bind at 1. rewrite Hf, Hok. cbn [negb].
    unfold bind at 1, catch. run.
    set (errorData := default (JObj []) (json r)) in *.
    replace (let (r0, w') :=
               match json r with
               | Some a => ret a
               | None => throw SyntaxError
               end w2 in
             match r0 with
             | Ok a => (Ok a, w')
             | Throw _ => ret (JObj []) w'
             end) with (Ok errorData, w2)
      by (subst errorData; destruct (json r); reflexivity).
    unfold bind at 1, csrf_retry. unfold bind at 1.
    assert (Hno : (if status r =? 403
                   then detail <- prop errorData "detail";;
                        (if truthy detail
                         then of_option TypeError (js_includes detail "CSRF")
                         else ret false)
                   else ret false) w2 = (Ok false, w2)).
    { destruct (Z.eqb_spec (status r) 403) as [E|_]; [|reflexivity].
      run. rewrite Hd. run.
      destruct Hcase as [Hc|[Hc|Hc]]; [contradiction| |].
      - rewrite Hc. reflexivity.
      - rewrite Hc. destruct (truthy d); reflexivity. }
    rewrite Hno. run. rewrite Hd. reflexivity.
  - unfold fetch in Hf. destruct (backend (sent w1) _); [discriminate|].
    injection Hf as _ <-. reflexivity.
  - subst thrown. destruct (truthy d); [exact Hd | reflexivity].
Qed.

(** C9, as amended.  With no token cached, let the [csrf_token] cookie
    read [csrf_token=<v1>=<v2>] after its leading blanks, [v1] without
    [=].  Then [getCsrfToken] returns [v1], the part of the value before
    its first [=], and caches it; and when [v1] is not empty, a mutating
    request carries [v1] as [X-CSRF-Token]. *)
Theorem cookie_token_truncated_at_equals b snt con ck v1 v2 :
  cached_token b = None ->
  find_csrf_cookie (split ";" (cookie b)) = Some ck ->
  trimStart ck = "csrf_token=" +:+ v1 +:+ "=" +:+ v2 ->
  includes v1 "=" = false ->
  let w := mkWorld (Some b) snt con in
  getCsrfToken w
  = (Ok (Some v1), mkWorld (Some (set_session "csrf_token" v1 b)) snt con)
  /\ (v1 <> "" ->
      forall endpoint options, mutating (method_of options) = true ->
      exists rest,
        sent (snd (apiRequest env backend endpoint options w))
        = snt ++ api_request env endpoint options
                   (<["X-CSRF-Token" := v1]>
                      (auth_headers options (localStorage b !! "auth_token")))
                 :: rest).
Proof.
  intros Hc Hf Ht Hv w.
  assert (Hs : split "=" ck !! 1%nat = Some v1).
  { rewrite split_trimStart, Ht, split_csrf_cookie. apply split_until_sep, Hv. }
  split.
  - subst w. rewrite getCsrfToken_browser, Hc, Hf, Hs. reflexivity.
  - intros Hne endpoint options Hm.
    assert (Hk : cookie_token b = Some v1).
    { unfold cookie_token. rewrite Hf, Hs. cbn.
      destruct (String.eqb_spec v1 ""); [contradiction|reflexivity]. }
    destruct (request_headers_resolved endpoint options w Hm)
      as (h & w1 & Hh & Hr).
    destruct (apiRequest_first_send endpoint options w h w1 Hh)
      as (rest & _ & Hsent & _).
    unfold resolved, resolution in Hr. subst w. cbn [window] in Hr.
    rewrite Hc, Hk in Hr. destruct Hr as (-> & Hs1 & _).
    exists rest. rewrite Hsent, Hs1. reflexivity.
Qed.

(** C7.  When the request for the current user throws, or returns a value
    whose [is_admin] is not true (absent, [false], or any other falsy
    value; reading it from [null] throws as well), [fetchUser] removes the
    stored tokens and leaves the store with [user] null and
    [isAuthenticated] false. *)
Theorem fetchUser_clears_session s w r w1 :
  getCurrentUser env backend w = (r, w1) ->
  (forall u flag, r = Ok u -> get_prop u "is_admin" = Some flag ->
     truthy flag = false) ->
  exists w2,
    fetchUser env backend (s, w)
    = (Ok tt, (mkAuth JNull false (isLoading s) (error s), w2))
    /\ apiLogout w1 = (Ok tt, w2)
    /\ sent w2 = sent w1
    /\ stored_bearer w2 = None
    /\ (forall b, window w2 = Some b ->
          localStorage b !! "auth_token" = None
          /\ localStorage b !! "refresh_token" = None).
Proof.
  intros Hu Hflag.
  destruct (apiLogout_clears w1) as (w2 & Hl & Hs & _ & Hb & Hw).
  exists w2. split; [|auto].
  unfold fetchUser, catch. unfold bind at 1. unfold lift at 1. cbn [fst snd].
  rewrite Hu. destruct r as [u|e].
  - unfold bind at 1. run.
    destruct (get_prop u "is_admin") as [flag|] eqn:Hf; run.
    + rewrite (Hflag u flag eq_refl Hf). unfold bind, lift. cbn [fst snd].
      rewrite Hl. reflexivity.
    + unfold bind, lift. cbn [fst snd]. rewrite Hl. reflexivity.
  - unfold bind, lift. cbn [fst snd]. rewrite Hl. reflexivity.
Qed.

End Pipeline.

(** ** The session store: logout *)

(** C10.  [logout] removes [auth_token] and [refresh_token] from
    [localStorage] and nothing else, resets [user], [isAuthenticated] and
    [error], and leaves [sessionStorage], the cookie, the network and the
    console as they were: the cached [csrf_token] is the same after as
    before, and so is the answer of [getCsrfToken]. *)
Theorem logout_frame s w :
  exists w',
    logout (s, w) = (Ok tt, (mkAuth JNull false (isLoading s) JNull, w'))
    /\ sent w' = sent w /\ console w' = console w
    /\ session_cache w' = session_cache w
    /\ fst (getCsrfToken w') = fst (getCsrfToken w)
    /\ match window w with
       | None => window w' = None
       | Some b =>
           exists b', window w' = Some b'
             /\ localStorage b'
                = delete "refresh_token" (delete "auth_token" (localStorage b))
             /\ (forall k,
                   localStorage b' !! k
                   = if String.eqb k "auth_token" || String.eqb k "refresh_token"
                     then None else localStorage b !! k)
             /\ sessionStorage b' = sessionStorage b
             /\ cookie b' = cookie b
       end.
Proof.
  destruct w as [[b|] snt con].
  2:{ eexists. split; [reflexivity|]. cbn. auto 6. }
  exists (mkWorld (Some (remove_local "refresh_token" (remove_local "auth_token" b)))
            snt con).
  do 4 (split; [reflexivity|]). split.
  { rewrite !getCsrfToken_browser.
    change (cached_token (remove_local "refresh_token" (remove_local "auth_token" b)))
      with (cached_token b).
    cbn [remove_local cookie].
    destruct (cached_token b); [reflexivity|].
    destruct (find_csrf_cookie _); reflexivity. }
  cbn. eexists. split; [reflexivity|]. cbn. repeat split.
  intros k.
  destruct (String.eqb_spec k "auth_token") as [->|H1].
  { rewrite lookup_delete_ne by discriminate. apply lookup_delete_eq. }
  destruct (String.eqb_spec k "refresh_token") as [->|H2].
  { apply lookup_delete_eq. }
  cbn. rewrite !lookup_delete_ne by congruence. reflexivity.
Qed.

(** ** The scenarios *)

(** For a flag of the declared type [boolean | undefined], not [true]
    is falsy. *)
Lemma boolean_flag_falsy flag :
  flag = JUndefined \/ (exists b, flag = JBool b) ->
  flag <> JBool true -> truthy flag = false.
Proof.
  intros [->|[[|] ->]] H; [reflexivity | contradiction | reflexivity].
Qed.


(** C1, failing input.  The backend accepts the credentials of a user
    whose [is_admin] is false: [login] stores the tokens and leaves the
    store authenticated as that user. *)
Theorem login_authenticates_non_admin :
  let out := login no_env member_login "member@example.com" "secret"
               (initial_state, fresh_tab) in
  get_prop member "is_admin" = Some (JBool false)
  /\ fst out = Ok tt
  /\ user (fst (snd out)) = member
  /\ isAuthenticated (fst (snd out)) = true
  /\ stored_bearer (snd (snd out)) = Some "acc"
  /\ session_cache (snd (snd out)) = Some "csrf".
Proof. vm_compute. repeat split. Qed.

(** C4, failing input.  A 200 response of content type [text/plain] with
    the body [OK], and a 200 response of content type [application/json]
    with an empty body, both make [apiRequest] throw a SyntaxError. *)
Theorem non_json_success_throws :
  fst (apiRequest no_env plain_ok "/api/v1/admin/status" opts_get fresh_tab)
  = Throw SyntaxError
  /\ fst (apiRequest no_env empty_json "/api/v1/admin/status" opts_get fresh_tab)
     = Throw SyntaxError.
Proof. split; reflexivity. Qed.

(** C2, counterexample.  A GET, which carries no token, is answered 403
    with a [detail] that contains [CSRF]; [ensureCsrfToken] then obtains
    the token [fresh] from the endpoint; yet the request is not sent again:
    the wire carries the request and the token fetch, and the first error
    is thrown. *)
Lemma csrf_rejected_get_not_resent :
  let w := mkWorld (Some signed_in) [] [] in
  let h := auth_headers opts_get (Some "acc") in
  let first := api_request no_env "/api/v1/admin/users" opts_get h in
  let out := apiRequest no_env rejecting "/api/v1/admin/users" opts_get w in
  request_headers no_env rejecting "/api/v1/admin/users" opts_get w = (Ok h, w)
  /\ rejecting [] first = Responded (json_reply 403 "Forbidden" csrf_rejection)
  /\ includes "CSRF token missing or invalid" "CSRF" = true
  /\ fst (ensureCsrfToken no_env rejecting (snd (fetch rejecting first w)))
     = Ok (JStr "fresh")
  /\ fresh_token h (snd (fetch rejecting first w)) (JStr "fresh")
  /\ sent (snd out) = [first; csrf_request no_env "acc"]
  /\ fst out = Throw (Thrown csrf_rejection).
Proof. vm_compute. repeat split. intros H. discriminate H. Qed.

(** C2, witness: the first POST goes out without a token and is rejected,
    the response sets the cookie, and the one retry with [fresh] succeeds. *)
Lemma csrf_rejection_retry_policy_witness :
  let endpoint := "/api/v1/admin/users/7/ban" in
  let final := apiRequest no_env double_submit endpoint opts_post fresh_tab in
  sent (snd final)
  = [api_request no_env endpoint opts_post (base_headers opts_post);
     api_request no_env endpoint opts_post
       (<["X-CSRF-Token" := "fresh"]> (base_headers opts_post))]
  /\ fst final = Ok (JObj [("banned", JBool true)]).
Proof.
  intros endpoint final.
  set (w1 := snd (request_headers no_env double_submit endpoint opts_post fresh_tab)).
  set (first := api_request no_env endpoint opts_post (base_headers opts_post)).
  set (w2 := snd (fetch double_submit first w1)).
  set (w3 := snd (ensureCsrfToken no_env double_submit w2)).
  destruct (csrf_rejection_retry_policy no_env double_submit endpoint opts_post
              fresh_tab (base_headers opts_post) w1 eq_refl) as [_ H].
  destruct (H (mkResponse 403 "Forbidden" (Some "application/json")
                 (render csrf_rejection) (Some csrf_rejection)
                 (Some "csrf_token=fresh"))
              w2 csrf_rejection "CSRF token missing or invalid" (JStr "fresh") w3
              eq_refl eq_refl eq_refl eq_refl eq_refl eq_refl eq_refl
              ltac:(split; [reflexivity | vm_compute; discriminate])
              ltac:(apply (bool_decide_unpack _); vm_compute; exact I))
    as (_ & _ & Hs & _ & Hok).
  split.
  - exact Hs.
  - apply (Hok (json_reply 200 "OK" (JObj [("banned", JBool true)])));
      reflexivity.
Defined.

(** C3, counterexample.  The body of a 400 response parses as JSON with
    the [detail] field [""]; the thrown [detail] is the synthesized
    string, not the backend's. *)
Lemma empty_detail_not_surfaced :
  let out := apiRequest no_env empty_detail "/api/v1/admin/users" opts_get fresh_tab in
  empty_detail [] (api_request no_env "/api/v1/admin/users" opts_get
                     (base_headers opts_get))
  = Responded (json_reply 400 "Bad Request" (JObj [("detail", JStr "")]))
  /\ get_prop (JObj [("detail", JStr "")]) "detail" = Some (JStr "")
  /\ fst out = Throw (Thrown (JObj [("detail", JStr "HTTP 400: Bad Request")]))
  /\ JStr "HTTP 400: Bad Request" <> JStr "".
Proof. vm_compute. repeat split. discriminate. Qed.

(** C3, witness: a 404 with a [detail]. *)
Lemma error_response_surfaced_witness :
  let endpoint := "/api/v1/admin/users/u-404" in
  let body := JObj [("detail", JStr "User not found")] in
  let w2 := snd (fetch not_found
                   (api_request no_env endpoint opts_get (base_headers opts_get))
                   fresh_tab) in
  apiRequest no_env not_found endpoint opts_get fresh_tab
  = (Throw (Thrown body), w2)
  /\ sent w2 = [api_request no_env endpoint opts_get (base_headers opts_get)]
  /\ get_prop body "detail" = Some (JStr "User not found").
Proof.
  intros endpoint body w2.
  apply (error_response_surfaced no_env not_found endpoint opts_get fresh_tab
           (base_headers opts_get) fresh_tab
           (json_reply 404 "Not Found" body) w2 (JStr "User not found"));
    [reflexivity | reflexivity | reflexivity | reflexivity | left; cbn; lia].
Defined.

(** C5, witness: a POST from a tab without any token, the backend down. *)
Lemma request_without_token_still_sent_witness :
  let endpoint := "/api/v1/admin/users/7/ban" in
  let w' := snd (apiRequest no_env offline endpoint opts_post fresh_tab) in
  (exists rest,
     sent w' = api_request no_env endpoint opts_post (base_headers opts_post) :: rest)
  /\ base_headers opts_post !! "X-CSRF-Token" = None
  /\ In (csrf_warning endpoint) (console w').
Proof.
  intros endpoint.
  destruct (request_without_token_still_sent no_env offline endpoint opts_post
              fresh_tab) as [_ H]; [reflexivity|].
  apply (H None). reflexivity.
Defined.

(** C6, counterexample.  A value that is present but empty does not
    count.  With the empty string in the cache the order as worded stops at
    (a), yet the token of the cookie is attached; with an empty value in
    the cookie it stops at (b), yet the endpoint is asked and its token
    attached; with an empty bearer token it asks the endpoint, yet nothing
    is sent and no token is attached. *)
Lemma empty_value_not_present :
  let endpoint := "/api/v1/admin/users/7/ban" in
  let run w := request_headers no_env rejecting endpoint opts_post w in
  let attached w := default ∅ (match fst (run w) with Ok h => Some h | _ => None end)
                      !! "X-CSRF-Token" in
  (resolution_as_worded no_env rejecting empty_cache_tab = FromCache ""
   /\ attached empty_cache_tab = Some "tok")
  /\ (resolution_as_worded no_env rejecting empty_cookie_tab = FromCookie ""
      /\ attached empty_cookie_tab = Some "fresh"
      /\ sent (snd (run empty_cookie_tab)) = [csrf_request no_env "acc"])
  /\ (resolution_as_worded no_env rejecting empty_bearer_tab
      = FromEndpoint "" (JStr "fresh")
      /\ attached empty_bearer_tab = None
      /\ sent (snd (run empty_bearer_tab)) = [])
  /\ (forall w h w1, In w [empty_cache_tab; empty_cookie_tab; empty_bearer_tab] ->
        run w = (Ok h, w1) ->
        ~ resolved_as no_env (resolution_as_worded no_env rejecting w)
            endpoint opts_post w h w1).
Proof.
  intros endpoint run attached.
  split; [split; reflexivity|]. split; [repeat split; reflexivity|].
  split; [repeat split; reflexivity|].
  intros w h w1 [<-|[<-|[<-|[]]]] [= <- <-] H.
  - destruct H as [H _]. apply (f_equal (lookup "X-CSRF-Token")) in H.
    vm_compute in H. discriminate H.
  - destruct H as [H _]. apply (f_equal (lookup "X-CSRF-Token")) in H.
    vm_compute in H. discriminate H.
  - destruct H as [H _]. apply (f_equal (lookup "X-CSRF-Token")) in H.
    vm_compute in H. discriminate H.
Qed.

(** C6, witness: nothing cached, the cookie of the backend in place. *)
Lemma csrf_token_resolution_order_witness :
  let endpoint := "/api/v1/admin/users/7/ban" in
  resolution_as_worded no_env rejecting cookie_tab = FromCookie "tok"
  /\ plain_cookie cookie_tab
  /\ exists h w1 rest,
       request_headers no_env rejecting endpoint opts_post cookie_tab = (Ok h, w1)
       /\ resolved_as no_env (FromCookie "tok") endpoint opts_post cookie_tab h w1
       /\ sent (snd (apiRequest no_env rejecting endpoint opts_post cookie_tab))
          = sent w1 ++ api_request no_env endpoint opts_post h :: rest.
Proof.
  intros endpoint.
  assert (Hp : plain_cookie cookie_tab).
  { intros b v [= <-] H. vm_compute in H. injection H as <-. reflexivity. }
  split; [reflexivity|]. split; [exact Hp|].
  destruct (csrf_token_resolution_order no_env rejecting endpoint opts_post
              cookie_tab eq_refl Hp) as (h & w1 & rest & H1 & H2 & _ & H4).
  exists h, w1, rest. auto.
Defined.

(** C7, witness: a signed-in admin session, and the backend now reports
    the user as no admin. *)
Lemma fetchUser_clears_session_witness :
  let s := mkAuth admin true false JNull in
  let w := mkWorld (Some signed_in) [] [] in
  exists w2,
    fetchUser no_env member_profile (s, w)
    = (Ok tt, (mkAuth JNull false false JNull, w2))
    /\ apiLogout (snd (getCurrentUser no_env member_profile w)) = (Ok tt, w2)
    /\ sent w2 = sent (snd (getCurrentUser no_env member_profile w))
    /\ stored_bearer w2 = None
    /\ (forall b, window w2 = Some b ->
          localStorage b !! "auth_token" = None
          /\ localStorage b !! "refresh_token" = None).
Proof.
  intros s w.
  apply (fetchUser_clears_session no_env member_profile s w (Ok member)
           (snd (getCurrentUser no_env member_profile w))).
  - reflexivity.
  - intros u flag [= <-] [= <-].
    apply boolean_flag_falsy; [right; eexists; reflexivity | discriminate].
Defined.

(** C9, counterexample.  The cookie is [csrf_token==abc]: the part of the
    value before its [=] is empty; it is returned and cached, and the POST
    goes out without [X-CSRF-Token]. *)
Lemma empty_truncation_not_sent :
  let out := apiRequest no_env offline "/api/v1/admin/users/7/ban" opts_post
               odd_cookie in
  fst (getCsrfToken odd_cookie) = Ok (Some "")
  /\ session_cache (snd (getCsrfToken odd_cookie)) = Some ""
  /\ map (fun r => req_headers r !! "X-CSRF-Token") (sent (snd out)) = [None].
Proof. vm_compute. repeat split. Qed.

(** C9, witness: the cookie [csrf_token=ab=cd]. *)
Lemma cookie_token_truncated_at_equals_witness :
  let w := mkWorld (Some padded_cookie) [] [] in
  getCsrfToken w
  = (Ok (Some "ab"),
     mkWorld (Some (set_session "csrf_token" "ab" padded_cookie)) [] [])
  /\ ("ab" <> "" ->
      forall endpoint options, mutating (method_of options) = true ->
      exists rest,
        sent (snd (apiRequest no_env offline endpoint options w))
        = [] ++ api_request no_env endpoint options
                   (<["X-CSRF-Token" := "ab"]>
                      (auth_headers options
                         (localStorage padded_cookie !! "auth_token")))
                 :: rest).
Proof.
  apply (cookie_token_truncated_at_equals no_env offline padded_cookie [] []
           " csrf_token=ab=cd" "ab" "cd"); reflexivity.
Defined.

(** A cookie value with [=] in it is cut at its first [=]: the header is
    not the value of the cookie, which the backend compares it with. *)
Lemma padded_cookie_value_cut :
  let endpoint := "/api/v1/admin/users/7/ban" in
  cookie_value "csrf_token" "csrf_token=YWJjZA==" = Some "YWJjZA=="
  /\ resolution_as_worded no_env offline padded_tab = FromCookie "YWJjZA=="
  /\ fst (request_headers no_env offline endpoint opts_post padded_tab)
     = Ok (<["X-CSRF-Token" := "YWJjZA"]> (base_headers opts_post)).
Proof. vm_compute. repeat split. Qed.

(** The recovery asks [ensureCsrfToken], which answers from the cache: a
    cached token that the backend rejects is sent again unchanged, and
    the token-issuing endpoint is not asked. *)
Lemma stale_cached_token_reused :
  let endpoint := "/api/v1/admin/users/7/ban" in
  let out := apiRequest no_env rotated endpoint opts_post stale_tab in
  let h := <["X-CSRF-Token" := "stale"]> (auth_headers opts_post (Some "acc")) in
  sent (snd out)
  = [api_request no_env endpoint opts_post h;
     api_request no_env endpoint opts_post h]
  /\ fst out = Throw (Thrown csrf_rejection)
  /\ session_cache (snd out) = Some "stale".
Proof. vm_compute. repeat split. Qed.

(** An error response whose body is the JSON value [null] escapes the
    error handling: reading [errorData.detail] throws a TypeError. *)
Lemma null_error_body_type_error :
  fst (apiRequest no_env null_body "/api/v1/admin/users" opts_get fresh_tab)
  = Throw TypeError.
Proof. reflexivity. Qed.

(** * More of the code *)

(** ** A small logic of frames *)

Section Frames.

Context {S : Type} (R : S -> S -> Prop).
Hypothesis R_refl : forall s, R s s.
Hypothesis R_trans : forall s1 s2 s3, R s1 s2 -> R s2 s3 -> R s1 s3.

Lemma preserves_ret {A} (a : A) : preserves R (ret a).
Proof. intros s. apply R_refl. Qed.

Lemma preserves_throw {A} e : preserves R (throw (A := A) e).
Proof. intros s. apply R_refl. Qed.

Lemma preserves_bind {A B} (m : ST S A) (k : A -> ST S B) :
  preserves R m -> (forall a, preserves R (k a)) -> preserves R (bind m k).
Proof.
  intros Hm Hk s. unfold bind. specialize (Hm s).
  destruct (m s) as [[a|e] s1]; [|exact Hm].
  eapply R_trans; [exact Hm|]. apply Hk.
Qed.

Lemma preserves_catch {A} (m : ST S A) (h : Exn -> ST S A) :
  preserves R m -> (forall e, preserves R (h e)) -> preserves R (catch m h).
Proof.
  intros Hm Hh s. unfold catch. specialize (Hm s).
  destruct (m s) as [[a|e] s1]; [exact Hm|].
  eapply R_trans; [exact Hm|]. apply Hh.
Qed.

Lemma preserves_of_option {A} e (o : option A) : preserves R (of_option e o).
Proof. destruct o; [apply preserves_ret | apply preserves_throw]. Qed.

End Frames.

(** Decompose a computation along its binds, catches and branches; [prim]
    closes the primitives and the functions already dealt with. *)
Ltac frame Hrefl Htrans prim :=
  repeat (intros; first
    [ apply (preserves_ret _ Hrefl)
    | apply (preserves_throw _ Hrefl)
    | apply (preserves_of_option _ Hrefl)
    | prim
    | apply (preserves_bind _ Htrans)
    | apply (preserves_catch _ Htrans)
    | match goal with
      | |- preserves _ (let _ := _ in _) => cbv zeta
      | |- preserves _ (if ?c then _ else _) => destruct c
      | |- preserves _ (match ?x with _ => _ end) => destruct x
      end ]).

(** ** What the client leaves alone *)

Lemma same_local_refl w : same_local w w.
Proof. reflexivity. Qed.

Lemma same_local_trans w1 w2 w3 :
  same_local w1 w2 -> same_local w2 w3 -> same_local w1 w3.
Proof. unfold same_local. congruence. Qed.

Lemma same_session_refl w : same_session_but_csrf w w.
Proof. unfold same_session_but_csrf. destruct (window w); auto. Qed.

Lemma same_session_trans w1 w2 w3 :
  same_session_but_csrf w1 w2 -> same_session_but_csrf w2 w3 ->
  same_session_but_csrf w1 w3.
Proof.
  unfold same_session_but_csrf.
  destruct (window w1), (window w2), (window w3); try tauto. congruence.
Qed.

Lemma grows_refl w : grows w w.
Proof. split; exists []; rewrite app_nil_r; reflexivity. Qed.

Lemma grows_trans w1 w2 w3 : grows w1 w2 -> grows w2 w3 -> grows w1 w3.
Proof.
  intros [[l1 H1] [c1 G1]] [[l2 H2] [c2 G2]]. split.
  - exists (l1 ++ l2). rewrite H2, H1, app_assoc. reflexivity.
  - exists (c1 ++ c2). rewrite G2, G1, app_assoc. reflexivity.
Qed.

Lemma kept_refl w : kept w w.
Proof.
  split; [apply same_local_refl | split; [apply same_session_refl | apply grows_refl]].
Qed.

Lemma kept_trans w1 w2 w3 : kept w1 w2 -> kept w2 w3 -> kept w1 w3.
Proof.
  intros (A1 & B1 & C1) (A2 & B2 & C2). split; [|split].
  - eapply same_local_trans; eassumption.
  - eapply same_session_trans; eassumption.
  - eapply grows_trans; eassumption.
Qed.

(** A step that keeps the [window] field and appends to the logs. *)
Lemma kept_logs w l c : kept w (mkWorld (window w) (sent w ++ l) (console w ++ c)).
Proof.
  split; [reflexivity | split].
  - unfold same_session_but_csrf. cbn. destruct (window w); auto.
  - split; eexists; reflexivity.
Qed.

Lemma kept_typeof : preserves kept typeof_window_undefined.
Proof.
  intros w. unfold typeof_window_undefined.
  destruct (window w); apply kept_refl.
Qed.

Lemma kept_read {A} (f : Browser -> A) : preserves kept (read_browser f).
Proof.
  intros w. unfold read_browser. destruct (window w); apply kept_refl.
Qed.

Lemma kept_cache v : preserves kept (sessionStorage_setItem "csrf_token" v).
Proof.
  intros w. unfold sessionStorage_setItem, write_browser.
  destruct (window w) as [b|] eqn:E; [|apply kept_refl].
  split; [|split]; cbn.
  - unfold same_local, local_store. cbn. rewrite E. reflexivity.
  - unfold same_session_but_csrf. cbn. rewrite E. cbn. apply delete_insert_eq.
  - split; exists []; cbn; rewrite app_nil_r; reflexivity.
Qed.

Lemma kept_warn msg arg : preserves kept (console_warn msg arg).
Proof.
  intros w. pose proof (kept_logs w [] [Warn msg arg]) as H.
  rewrite app_nil_r in H. exact H.
Qed.

Lemma kept_error msg e : preserves kept (console_error msg e).
Proof.
  intros w. pose proof (kept_logs w [] [Error msg e]) as H.
  rewrite app_nil_r in H. exact H.
Qed.

Lemma kept_fetch backend req : preserves kept (fetch backend req).
Proof.
  intros w. unfold fetch.
  destruct (backend (sent w) req) as [|r]; cbn [snd].
  { pose proof (kept_logs w [req] []) as H. rewrite app_nil_r in H. exact H. }
  split; [|split]; cbn.
  - unfold same_local, local_store. cbn.
    destruct (window w); [|reflexivity]. cbn. unfold receive.
    destruct (set_cookie r); reflexivity.
  - unfold same_session_but_csrf. cbn.
    destruct (window w); [|exact I]. cbn. unfold receive.
    destruct (set_cookie r); reflexivity.
  - split; [eexists; reflexivity | exists []; rewrite app_nil_r; reflexivity].
Qed.

Ltac kept_prim :=
  first [ apply kept_typeof | apply kept_read | apply kept_cache
        | apply kept_warn | apply kept_error | apply kept_fetch
        | match goal with H : _ |- _ => apply H end ].

Section Kept.

Variable env : option string.
Variable backend : list Request -> Request -> FetchOutcome.

Lemma kept_getAuthToken : preserves kept getAuthToken.
Proof.
  unfold getAuthToken, localStorage_getItem. frame kept_refl kept_trans kept_prim.
Qed.

Lemma kept_getCsrfToken : preserves kept getCsrfToken.
Proof.
  unfold getCsrfToken, sessionStorage_getItem, document_cookie.
  frame kept_refl kept_trans kept_prim.
Qed.

Lemma kept_ensureCsrfToken : preserves kept (ensureCsrfToken env backend).
Proof.
  pose proof kept_getAuthToken. pose proof kept_getCsrfToken.
  unfold ensureCsrfToken, response_json, prop.
  frame kept_refl kept_trans kept_prim.
Qed.

Lemma kept_request_headers endpoint options :
  preserves kept (request_headers env backend endpoint options).
Proof.
  pose proof kept_getAuthToken. pose proof kept_getCsrfToken.
  pose proof kept_ensureCsrfToken.
  unfold request_headers. frame kept_refl kept_trans kept_prim.
Qed.

Lemma kept_csrf_retry endpoint options h r errorData :
  preserves kept (csrf_retry env backend endpoint options h r errorData).
Proof.
  pose proof kept_ensureCsrfToken.
  unfold csrf_retry, response_json, prop.
  frame kept_refl kept_trans kept_prim.
Qed.

Lemma kept_apiRequest endpoint options :
  preserves kept (apiRequest env backend endpoint options).
Proof.
  pose proof (kept_request_headers endpoint options).
  pose proof (kept_csrf_retry endpoint options).
  unfold apiRequest, response_json, prop.
  frame kept_refl kept_trans kept_prim.
Qed.

End Kept.

(** ** The token store of [client.ts] *)

(** X1.  In a browser the bearer token that [setAuthToken] stores is the one
    [getAuthToken] reads back, as a string; [clearAuthTokens] removes it
    together with the refresh token, once and for all (a second call
    changes nothing); no other entry of either storage is touched. *)
Theorem auth_token_round_trip w b token :
  window w = Some b ->
  exists w1 w2,
    setAuthToken token w = (Ok tt, w1)
    /\ getAuthToken w1 = (Ok (Some (js_to_string token)), w1)
    /\ (forall k, k <> "auth_token" ->
          stored_local k w1 = localStorage b !! k)
    /\ session_store w1 = Some (sessionStorage b)
    /\ clearAuthTokens w1 = (Ok tt, w2)
    /\ getAuthToken w2 = (Ok None, w2)
    /\ stored_local "refresh_token" w2 = None
    /\ clearAuthTokens w2 = (Ok tt, w2).
Proof.
  intros Hw. destruct w as [win snt con]. cbn in Hw. subst win.
  do 2 eexists. split; [reflexivity|]. split.
  { rewrite getAuthToken_eq. cbn. rewrite lookup_insert_eq. reflexivity. }
  split.
  { intros k Hk. cbn. rewrite lookup_insert_ne by congruence. reflexivity. }
  split; [reflexivity|]. split; [reflexivity|]. split.
  { rewrite getAuthToken_eq. cbn.
    rewrite lookup_delete_ne by discriminate. rewrite lookup_delete_eq. reflexivity. }
  split.
  { cbn. apply lookup_delete_eq. }
  cbn. unfold remove_local. cbn.
  rewrite (delete_id (delete "refresh_token" _) "auth_token")
    by (rewrite lookup_delete_ne by discriminate; apply lookup_delete_eq).
  rewrite (delete_id (delete "refresh_token" _) "refresh_token")
    by apply lookup_delete_eq.
  reflexivity.
Qed.

(** X1, witness: a token stored in a fresh tab, read back, then cleared. *)
Lemma auth_token_round_trip_witness :
  let w1 := snd (setAuthToken (JStr "acc") fresh_tab) in
  fst (getAuthToken w1) = Ok (Some "acc")
  /\ fst (getAuthToken (snd (clearAuthTokens w1))) = Ok None.
Proof.
  destruct (auth_token_round_trip fresh_tab (mkBrowser ∅ ∅ "") (JStr "acc") eq_refl)
    as (w1 & w2 & H1 & H2 & _ & _ & H5 & H6 & _).
  cbv zeta. rewrite H1. cbn [snd]. rewrite H2, H5. cbn [snd]. rewrite H6.
  split; reflexivity.
Defined.

(** ** A small logic of exceptions *)

Section Raises.

Context {S : Type} (Q : Exn -> S -> Prop).

Lemma raises_ret {A} (a : A) : raises Q (ret a).
Proof. intros s e s' H. discriminate. Qed.

Lemma raises_throw {A} e : (forall s, Q e s) -> raises Q (throw (A := A) e).
Proof. intros He s e' s' H. injection H as <- <-. apply He. Qed.

Lemma raises_bind {A B} (m : ST S A) (k : A -> ST S B) :
  raises Q m -> (forall a, raises Q (k a)) -> raises Q (bind m k).
Proof.
  intros Hm Hk s e s'. unfold bind. specialize (Hm s).
  destruct (m s) as [[a|e1] s1].
  - apply Hk.
  - intros H. injection H as <- <-. eapply Hm. reflexivity.
Qed.

Lemma raises_catch {A} (m : ST S A) (h : Exn -> ST S A) :
  (forall e, raises Q (h e)) -> raises Q (catch m h).
Proof.
  intros Hh s e s'. unfold catch.
  destruct (m s) as [[a|e1] s1]; [discriminate|]. apply Hh.
Qed.

Lemma raises_of_option {A} e (o : option A) :
  (forall s, Q e s) -> raises Q (of_option e o).
Proof. intros He. destruct o; [apply raises_ret | apply raises_throw, He]. Qed.

Lemma raises_always_ok {A} (m : ST S A) :
  (forall s, exists a s', m s = (Ok a, s')) -> raises Q m.
Proof. intros H s e s' E. destruct (H s) as (a & s1 & E1). congruence. Qed.

End Raises.

Section MoreClient.

Variable env : option string.
Variable backend : list Request -> Request -> FetchOutcome.

(** *** The token look-up *)

(** X2.  [getCsrfToken] never throws and is idempotent: called again, it
    gives the same answer and changes nothing more.  It sends nothing, logs
    nothing, leaves [localStorage] alone and writes at most the cached
    [csrf_token]; the token it returns, if any, is the cached one
    afterwards. *)
Theorem getCsrfToken_idempotent w :
  exists o w',
    getCsrfToken w = (Ok o, w')
    /\ getCsrfToken w' = (Ok o, w')
    /\ (forall t, o = Some t -> session_cache w' = Some t)
    /\ sent w' = sent w /\ console w' = console w
    /\ local_store w' = local_store w
    /\ same_session_but_csrf w w'.
Proof.
  destruct w as [[b|] snt con].
  2:{ exists None. eexists. repeat split; discriminate. }
  rewrite getCsrfToken_browser.
  destruct (cached_token b) as [t|] eqn:C.
  { exists (Some t). eexists. split; [reflexivity|]. split.
    { rewrite getCsrfToken_browser, C. reflexivity. }
    split.
    { intros t' [= <-]. apply nonempty_Some in C as [C _]. exact C. }
    repeat split. }
  destruct (find_csrf_cookie (split ";" (cookie b))) as [c|] eqn:F.
  2:{ exists None. eexists. split; [reflexivity|]. split.
      { rewrite getCsrfToken_browser, C, F. reflexivity. }
      split; [discriminate|]. repeat split. }
  destruct (find_csrf_cookie_token _ _ F) as [t Ht]. rewrite Ht.
  exists (Some t). eexists. split; [reflexivity|]. split.
  { rewrite getCsrfToken_browser. unfold cached_token.
    cbn [set_session sessionStorage cookie js_to_string of_undefinable].
    rewrite lookup_insert_eq. cbn [nonempty].
    destruct (truthy (JStr t)); [reflexivity|].
    rewrite F, Ht.
    cbn [set_session sessionStorage localStorage cookie js_to_string of_undefinable].
    unfold set_session. cbn [sessionStorage localStorage cookie].
    rewrite insert_insert_eq. reflexivity. }
  split.
  { intros t' [= <-]. cbn. apply lookup_insert_eq. }
  do 3 (split; [reflexivity|]).
  cbn. rewrite delete_insert_eq. reflexivity.
Qed.

(** X3.  [ensureCsrfToken] never throws.  It returns [null] or a truthy
    token that is the cached one from then on, so that a second call
    returns a string token again without any request.  It sends at most one
    request, to the token-issuing endpoint with the stored bearer token,
    and none when there is no bearer token or when the cache or the cookie
    holds a token. *)
Theorem ensureCsrfToken_contract w :
  exists v w' asked,
    ensureCsrfToken env backend w = (Ok v, w')
    /\ (v = JNull
        \/ truthy v = true /\ session_cache w' = Some (js_to_string v))
    /\ (forall t, v = JStr t ->
          ensureCsrfToken env backend w' = (Ok (JStr t), w'))
    /\ sent w' = sent w ++ asked_requests env asked
    /\ (forall a, asked = Some a ->
          stored_bearer w = Some a /\ a <> ""
          /\ exists o, fst (getCsrfToken w) = Ok o
                       /\ truthy (of_nullable o) = false).
Proof.
  destruct w as [[b|] snt con].
  { destruct (cached_token b) as [t|] eqn:C.
    { rewrite (ensureCsrfToken_cached _ _ _ _ _ _ C).
      exists (JStr t). eexists. exists None. split; [reflexivity|].
      pose proof C as C'. apply nonempty_Some in C' as [C1 C2].
      split; [right; split; [exact C2 | exact C1]|].
      split.
      { intros t' [= <-]. apply (ensureCsrfToken_cached _ _ _ _ _ _ C). }
      split; [cbn; rewrite app_nil_r; reflexivity | discriminate]. }
    destruct (cookie_token b) as [t|] eqn:K.
    { rewrite (ensureCsrfToken_cookie _ _ _ _ _ _ C K).
      exists (JStr t). eexists. exists None. split; [reflexivity|].
      pose proof K as K'. apply nonempty_Some in K' as [_ K2].
      split; [right; split; [exact K2 | cbn; apply lookup_insert_eq]|].
      split.
      { intros t' [= <-]. apply ensureCsrfToken_cached.
        unfold cached_token. cbn [set_session sessionStorage].
        rewrite lookup_insert_eq. cbn [nonempty]. rewrite K2. reflexivity. }
      split; [cbn; rewrite app_nil_r; reflexivity | discriminate]. }
    rewrite (ensureCsrfToken_endpoint _ _ _ _ _ C K).
    destruct (getCsrfToken_nothing _ snt con C K) as (o & Ho & Hfalsy).
    destruct (bearer_token b) as [a|] eqn:B.
    2:{ exists JNull. eexists. exists None. split; [reflexivity|].
        split; [left; reflexivity|]. split; [discriminate|].
        split; [cbn; rewrite app_nil_r; reflexivity | discriminate]. }
    assert (Hasked : forall a', Some a = Some a' ->
              stored_bearer (mkWorld (Some b) snt con) = Some a' /\ a' <> ""
              /\ exists o, fst (getCsrfToken (mkWorld (Some b) snt con)) = Ok o
                           /\ truthy (of_nullable o) = false).
    { intros a' [= <-]. apply nonempty_Some in B as [B1 B2]. split; [exact B1|].
      split; [intros ->; discriminate|]. exists o. rewrite Ho. auto. }
    cbn zeta.
    destruct (backend snt (csrf_request env a)) as [|r].
    { exists JNull. eexists. exists (Some a). split; [reflexivity|].
      split; [left; reflexivity|]. split; [discriminate|].
      split; [reflexivity | exact Hasked]. }
    destruct (ok r).
    2:{ exists JNull. eexists. exists (Some a). split; [reflexivity|].
        split; [left; reflexivity|]. split; [discriminate|].
        split; [reflexivity | exact Hasked]. }
    destruct (json r) as [data|].
    2:{ exists JNull. eexists. exists (Some a). split; [reflexivity|].
        split; [left; reflexivity|]. split; [discriminate|].
        split; [reflexivity | exact Hasked]. }
    destruct (get_prop data "csrf_token") as [v|].
    2:{ exists JNull. eexists. exists (Some a). split; [reflexivity|].
        split; [left; reflexivity|]. split; [discriminate|].
        split; [reflexivity | exact Hasked]. }
    destruct (truthy v) eqn:T.
    2:{ exists JNull. eexists. exists (Some a). split; [reflexivity|].
        split; [left; reflexivity|]. split; [discriminate|].
        split; [reflexivity | exact Hasked]. }
    exists v. eexists. exists (Some a). split; [reflexivity|].
    split; [right; split; [exact T | cbn; apply lookup_insert_eq]|].
    split.
    { intros t ->. apply ensureCsrfToken_cached.
      unfold cached_token. cbn [set_session sessionStorage js_to_string].
      rewrite lookup_insert_eq. cbn [nonempty]. rewrite T. reflexivity. }
    split; [reflexivity | exact Hasked]. }
  rewrite ensureCsrfToken_server.
  exists JNull. eexists. exists None. split; [reflexivity|].
  split; [left; reflexivity|]. split; [discriminate|].
  split; [cbn; rewrite app_nil_r; reflexivity | discriminate].
Qed.

End MoreClient.

(** Decompose a computation along its binds, catches and branches; [leaf]
    closes the throws and the functions already dealt with. *)
Ltac thrown leaf :=
  repeat (intros; first
    [ apply raises_ret
    | apply raises_throw; leaf
    | apply raises_of_option; leaf
    | leaf
    | apply raises_bind
    | apply raises_catch
    | match goal with
      | |- raises _ (let _ := _ in _) => cbv zeta
      | |- raises _ (if ?c then _ else _) => destruct c
      | |- raises _ (match ?x with _ => _ end) => destruct x
      end ]).

Section MoreRequests.

Variable env : option string.
Variable backend : list Request -> Request -> FetchOutcome.

(** *** What a request leaves alone *)

(** X4.  Whatever the backend answers and however the request ends,
    [apiRequest] never writes [localStorage] (the bearer and refresh tokens
    stay as they are, also after a rejection), writes no entry of
    [sessionStorage] but [csrf_token], and only adds to the requests sent
    and to the console. *)
Theorem apiRequest_storage_frame endpoint options w :
  let w' := snd (apiRequest env backend endpoint options w) in
  local_store w' = local_store w
  /\ same_session_but_csrf w w'
  /\ (exists l, sent w' = sent w ++ l)
  /\ (exists c, console w' = console w ++ c).
Proof.
  destruct (kept_apiRequest env backend endpoint options w) as (H1 & H2 & H3 & H4).
  auto.
Qed.

(** *** Where there is no window *)

Lemma request_headers_ok endpoint options w :
  exists h w1, request_headers env backend endpoint options w = (Ok h, w1).
Proof.
  destruct (mutating (method_of options)) eqn:Hm.
  - destruct (request_headers_resolved env backend endpoint options w Hm)
      as (h & w1 & H & _). eauto.
  - rewrite (request_headers_plain env backend endpoint options w Hm). eauto.
Qed.

Lemma ensureCsrfToken_ok w :
  exists v w', ensureCsrfToken env backend w = (Ok v, w').
Proof.
  destruct (ensureCsrfToken_total env backend w) as (v & w' & _ & _ & H & _). eauto.
Qed.

Lemma fetch_raises req :
  raises (fun e (_ : World) => not_reference e) (fetch backend req).
Proof.
  intros w e w'. unfold fetch. destruct (backend (sent w) req).
  - intros [= <- _]. exact I.
  - discriminate.
Qed.

Lemma apiRequest_raises endpoint options :
  raises (fun e (_ : World) => not_reference e)
    (apiRequest env backend endpoint options).
Proof.
  unfold apiRequest, csrf_retry, response_json, prop.
  thrown ltac:(first
    [ exact (fun _ => I)
    | apply fetch_raises
    | apply raises_always_ok;
      first [apply request_headers_ok | apply ensureCsrfToken_ok] ]).
Qed.

(** X5.  [apiRequest] never fails for want of a browser: with or without
    a [window], whatever is stored and whatever the backend answers, it
    does not throw the [ReferenceError] of an undefined [localStorage],
    [sessionStorage] or [document]; every access to them sits behind a
    [typeof window] test. *)
Theorem apiRequest_no_reference_error endpoint options w :
  reference_error (fst (apiRequest env backend endpoint options w)) = false.
Proof.
  destruct (apiRequest env backend endpoint options w) as [[v|e] w'] eqn:E;
    [reflexivity|].
  apply apiRequest_raises in E. destruct e; try reflexivity. destruct E.
Qed.

(** *** When the network fails *)

Lemma fetch_attempt endpoint options h :
  raises (offline_attempt env backend endpoint options)
    (fetch backend (api_request env endpoint options h)).
Proof.
  intros w e w'. unfold fetch.
  destruct (backend (sent w) _) eqn:E; [|discriminate].
  intros [= <- <-] _. exists (sent w), h. auto.
Qed.

Lemma apiRequest_offline endpoint options :
  raises (offline_attempt env backend endpoint options)
    (apiRequest env backend endpoint options).
Proof.
  unfold apiRequest, csrf_retry, response_json, prop.
  thrown ltac:(first
    [ intros ? [=]
    | apply fetch_attempt
    | apply raises_always_ok;
      first [apply request_headers_ok | apply ensureCsrfToken_ok] ]).
Qed.

(** X6.  When the network fails on the first attempt, [apiRequest] rejects
    with the failure of [fetch] itself: the attempt is the last request
    sent, nothing is retried, no token is asked for, nothing is written to
    the console and storage stays as the headers' look-up left it.
    Conversely, [apiRequest] rejects with the failure of [fetch] only when
    the network failed on the request itself or on its retry, which is
    then the last request sent: a failure while asking for a CSRF token
    never rejects the call. *)
Theorem network_failure_rejects endpoint options w h w1 :
  request_headers env backend endpoint options w = (Ok h, w1) ->
  (backend (sent w1) (api_request env endpoint options h) = NetworkError ->
   apiRequest env backend endpoint options w
   = (Throw FetchFailed,
      mkWorld (window w1) (sent w1 ++ [api_request env endpoint options h])
        (console w1)))
  /\ (forall w',
        apiRequest env backend endpoint options w = (Throw FetchFailed, w') ->
        exists before h',
          sent w' = before ++ [api_request env endpoint options h']
          /\ backend before (api_request env endpoint options h') = NetworkError).
Proof.
  intros Hh. split.
  - intros Hn. unfold apiRequest. unfold bind at 1. rewrite Hh.
    unfold bind at 1, fetch. rewrite Hn. reflexivity.
  - intros w' H. apply (apiRequest_offline _ _ _ _ _ H). reflexivity.
Qed.

(** *** The headers of a request *)

Lemma base_headers_lookup options k :
  base_headers options !! k
  = match default ∅ (init_headers options) !! k with
    | Some v => Some v
    | None => if String.eqb k "Content-Type" then Some "application/json" else None
    end.
Proof.
  unfold base_headers. rewrite lookup_union.
  destruct (default ∅ (init_headers options) !! k) as [v|] eqn:E.
  - destruct ({[ "Content-Type" := "application/json" ]} !! k);
      reflexivity.
  - destruct (String.eqb_spec k "Content-Type") as [->|H].
    + rewrite lookup_singleton_eq. reflexivity.
    + rewrite lookup_singleton_ne by congruence. reflexivity.
Qed.

Lemma request_headers_shape endpoint options w h w1 :
  request_headers env backend endpoint options w = (Ok h, w1) ->
  h = auth_headers options (stored_bearer w)
  \/ mutating (method_of options) = true
     /\ exists t, h = <["X-CSRF-Token" := t]> (auth_headers options (stored_bearer w)).
Proof.
  intros H. destruct (mutating (method_of options)) eqn:Hm.
  - destruct (request_headers_resolved env backend endpoint options w Hm)
      as (h' & w1' & H' & Hr).
    rewrite H in H'. injection H' as <- <-.
    unfold resolved in Hr.
    destruct (resolution env backend w);
      [destruct Hr as [-> _] | destruct Hr as [-> _]
      | destruct Hr as [-> _] | destruct Hr as [-> _]]; eauto.
  - rewrite (request_headers_plain env backend endpoint options w Hm) in H.
    injection H as <- _. auto.
Qed.

(** X7.  The headers of the first attempt merge the caller's with the
    client's: the caller's [Content-Type] wins over the default
    [application/json]; a stored, non-empty bearer token wins over the
    caller's [Authorization], which is kept otherwise; every header other
    than these two and [X-CSRF-Token] is the caller's, none is added;
    and a request that is not a POST, PUT, DELETE or PATCH keeps the
    caller's [X-CSRF-Token], if any. *)
Theorem request_headers_merge endpoint options w h w1 :
  request_headers env backend endpoint options w = (Ok h, w1) ->
  let given := default ∅ (init_headers options) in
  h !! "Content-Type"
  = Some (default "application/json" (given !! "Content-Type"))
  /\ h !! "Authorization"
     = match nonempty (stored_bearer w) with
       | Some t => Some ("Bearer " +:+ t)
       | None => given !! "Authorization"
       end
  /\ (forall k, k <> "Content-Type" -> k <> "Authorization" ->
        k <> "X-CSRF-Token" -> h !! k = given !! k)
  /\ (mutating (method_of options) = false ->
        h !! "X-CSRF-Token" = given !! "X-CSRF-Token").
Proof.
  intros H given.
  assert (Hauth : forall k, k <> "Authorization" ->
            auth_headers options (stored_bearer w) !! k = base_headers options !! k).
  { intros k Hk. unfold auth_headers.
    destruct (stored_bearer w) as [t|]; [|reflexivity].
    destruct (truthy (JStr t)); [|reflexivity].
    apply lookup_insert_ne. congruence. }
  assert (Hbearer : auth_headers options (stored_bearer w) !! "Authorization"
            = match nonempty (stored_bearer w) with
              | Some t => Some ("Bearer " +:+ t)
              | None => given !! "Authorization"
              end).
  { unfold auth_headers, nonempty.
    destruct (stored_bearer w) as [t|].
    - destruct (truthy (JStr t)).
      + apply lookup_insert_eq.
      + rewrite base_headers_lookup. fold given.
        destruct (given !! "Authorization"); reflexivity.
    - rewrite base_headers_lookup. fold given.
      destruct (given !! "Authorization"); reflexivity. }
  assert (Hh : forall k, k <> "X-CSRF-Token" ->
            h !! k = auth_headers options (stored_bearer w) !! k).
  { intros k Hk.
    destruct (request_headers_shape _ _ _ _ _ H) as [->|(_ & t & ->)];
      [reflexivity|].
    apply lookup_insert_ne. congruence. }
  split.
  { rewrite Hh, Hauth, base_headers_lookup by discriminate. fold given.
    destruct (given !! "Content-Type"); reflexivity. }
  split.
  { rewrite Hh by discriminate. exact Hbearer. }
  split.
  { intros k H1 H2 H3. rewrite Hh, Hauth, base_headers_lookup by assumption.
    fold given. destruct (given !! k); [reflexivity|].
    destruct (String.eqb_spec k "Content-Type"); [contradiction | reflexivity]. }
  intros Hm.
  destruct (request_headers_shape _ _ _ _ _ H) as [->|(Hm' & _)];
    [|congruence].
  rewrite Hauth, base_headers_lookup by discriminate. fold given.
  destruct (given !! "X-CSRF-Token"); reflexivity.
Qed.

End MoreRequests.

(** X6, witness: a GET from a signed-in tab while nothing answers. *)
Lemma network_failure_rejects_witness :
  let w := mkWorld (Some signed_in) [] [] in
  let out := apiRequest no_env offline "/api/v1/users/me" opts_get w in
  fst out = Throw FetchFailed
  /\ sent (snd out)
     = [api_request no_env "/api/v1/users/me" opts_get
          (<["Authorization" := "Bearer acc"]> (base_headers opts_get))]
  /\ console (snd out) = []
  /\ window (snd out) = Some signed_in.
Proof.
  intros w out.
  destruct (network_failure_rejects no_env offline "/api/v1/users/me" opts_get w
              (<["Authorization" := "Bearer acc"]> (base_headers opts_get)) w
              eq_refl) as [H _].
  unfold out. rewrite (H eq_refl). repeat split.
Defined.

(** X7, witness: a POST that brings an [Accept], an [Authorization] and a
    [Content-Type] of its own, from a signed-in tab with a cached token. *)
Lemma request_headers_merge_witness :
  let h := <["X-CSRF-Token" := "tok"]>
             (<["Authorization" := "Bearer acc"]> (base_headers opts_export)) in
  request_headers no_env offline "/api/v1/admin/export" opts_export working_tab
  = (Ok h, working_tab)
  /\ h !! "Content-Type" = Some "text/plain"
  /\ h !! "Authorization" = Some "Bearer acc"
  /\ h !! "Accept" = Some "text/csv".
Proof.
  intros h.
  assert (E : request_headers no_env offline "/api/v1/admin/export" opts_export
                working_tab = (Ok h, working_tab)) by reflexivity.
  destruct (request_headers_merge no_env offline _ _ _ _ _ E) as (H1 & H2 & H3 & _).
  split; [exact E|]. split; [exact H1|]. split; [exact H2|].
  rewrite (H3 "Accept") by discriminate. reflexivity.
Defined.

(** ** Signing in *)

Section MoreAuth.

Variable env : option string.
Variable backend : list Request -> Request -> FetchOutcome.

Lemma get_prop_defined data k k' v :
  get_prop data k = Some v -> get_prop data k' = Some (field data k').
Proof. unfold field. destruct data; cbn; intros H; try discriminate; reflexivity. Qed.

(** [login] of [auth.ts], in a browser, case by case. *)
Lemma apiLogin_browser email password b snt con :
  apiLogin env backend email password (mkWorld (Some b) snt con) =
  let req := login_request env email password in
  let snt' := snt ++ [req] in
  match backend snt req with
  | NetworkError => (Throw FetchFailed, mkWorld (Some b) snt' con)
  | Responded r =>
      let b1 := receive r b in
      if ok r then
        match json r with
        | Some data =>
            match get_prop data "access_token" with
            | Some _ => (Ok data, mkWorld (Some (login_storage data b1)) snt' con)
            | None => (Throw TypeError, mkWorld (Some b1) snt' con)
            end
        | None => (Throw SyntaxError, mkWorld (Some b1) snt' con)
        end
      else (Throw (Thrown (default (http_error r) (json r))),
            mkWorld (Some b1) snt' con)
  end.
Proof.
  unfold apiLogin, login_request. unfold bind at 1. unfold fetch.
  cbn [sent window console]. cbv zeta.
  destruct (backend snt _) as [|r]; [reflexivity|].
  cbn [fmap option_fmap option_map].
  destruct (ok r); cbn [negb].
  2:{ unfold bind, catch. run. destruct (json r); reflexivity. }
  unfold bind at 1. run. destruct (json r) as [data|]; [|reflexivity].
  run. unfold login_storage, field.
  destruct data as [| |flag|n|s|xs|fs]; try reflexivity.
  cbn [get_prop from_option id].
  cbv [bind ret setAuthToken typeof_window_undefined localStorage_setItem
       sessionStorage_setItem write_browser window sent console].
  destruct (truthy (assoc "refresh_token" fs));
    destruct (truthy (assoc "csrf_token" fs)); reflexivity.
Qed.

Lemma receive_local r b : localStorage (receive r b) = localStorage b.
Proof. unfold receive. destruct (set_cookie r); reflexivity. Qed.

Lemma receive_session r b : sessionStorage (receive r b) = sessionStorage b.
Proof. unfold receive. destruct (set_cookie r); reflexivity. Qed.

(** A sign-in that fails has sent the one request and written nothing. *)
Lemma apiLogin_failure email password w b e w' :
  window w = Some b ->
  apiLogin env backend email password w = (Throw e, w') ->
  local_store w' = local_store w /\ session_store w' = session_store w
  /\ sent w' = sent w ++ [login_request env email password]
  /\ console w' = console w.
Proof.
  destruct w as [win snt con]. cbn [window]. intros ->.
  rewrite apiLogin_browser. cbv zeta. unfold local_store, session_store.
  destruct (backend snt _) as [|r].
  { intros [= _ <-]. auto. }
  destruct (ok r).
  2:{ intros [= _ <-]. cbn. rewrite receive_local, receive_session. auto. }
  destruct (json r) as [data|].
  2:{ intros [= _ <-]. cbn. rewrite receive_local, receive_session. auto. }
  destruct (get_prop data "access_token"); [discriminate|].
  intros [= _ <-]. cbn. rewrite receive_local, receive_session. auto.
Qed.

Lemma apiLogin_user email password w data w1 :
  apiLogin env backend email password w = (Ok data, w1) ->
  get_prop data "user" = Some (field data "user").
Proof.
  unfold apiLogin. unfold bind at 1.
  destruct (fetch backend _ w) as [[r|e] w0]; [|discriminate].
  destruct (negb (ok r)).
  { unfold bind, catch. run. destruct (json r); discriminate. }
  unfold bind at 1. run. destruct (json r) as [d|]; [|discriminate].
  run. unfold bind at 1. run.
  destruct (get_prop d "access_token") as [a|] eqn:Ha; [|discriminate].
  run. intros H.
  assert (d = data) as ->.
  { revert H. unfold bind, ret.
    repeat match goal with
           | |- context [match ?m ?s with _ => _ end] =>
               destruct (m s) as [[?|?] ?]; try discriminate
           end.
    intros [= -> _]. reflexivity. }
  apply (get_prop_defined _ _ _ _ Ha).
Qed.

(** X8.  When [login] of the store fails in a browser, for whatever
    reason (the network, a rejection, a reply that is no JSON or is
    [null]), the exception of the sign-in request is thrown on, the store
    stops loading with [error] set to the [detail] of the thrown value if
    that is truthy and to [Login failed] otherwise, [user] and
    [isAuthenticated] are as before, and so are [localStorage] and
    [sessionStorage]: the tokens of an earlier session are neither replaced
    nor removed.  One request has been sent, the sign-in itself, which
    carries neither bearer nor CSRF token. *)
Theorem login_failure_state email password s w b e sw' :
  window w = Some b ->
  login env backend email password (s, w) = (Throw e, sw') ->
  fst (apiLogin env backend email password w) = Throw e
  /\ fst sw' = mkAuth (user s) (isAuthenticated s) false
                 (if truthy (exn_detail e) then exn_detail e
                  else JStr "Login failed")
  /\ local_store (snd sw') = local_store w
  /\ session_store (snd sw') = session_store w
  /\ sent (snd sw') = sent w ++ [login_request env email password]
  /\ req_headers (login_request env email password)
     = {[ "Content-Type" := "application/json" ]}
  /\ console (snd sw') = console w.
Proof.
  intros Hw. unfold login, catch. run. unfold bind at 1.
  cbn [set fst snd]. unfold bind at 1. unfold lift at 1. cbn [fst snd].
  destruct (apiLogin env backend email password w) as [[data|e'] w1] eqn:E.
  { run. rewrite (apiLogin_user _ _ _ _ _ E). cbn. discriminate. }
  unfold bind, set. cbn [fst snd]. unfold throw. intros [= <- <-].
  cbn [fst snd].
  destruct (apiLogin_failure _ _ _ _ _ _ Hw E) as (H1 & H2 & H3 & H4).
  auto 10.
Qed.

(** X9.  A successful sign-in primes the client.  When the reply carries
    a non-empty [access_token] and a non-empty [csrf_token], the bearer
    token read back is that access token, the CSRF token read back is that
    CSRF token, and the headers of any later POST, PUT, DELETE or PATCH
    carry both, built without a request to the token-issuing endpoint,
    whatever the backend would answer. *)
Theorem login_primes_requests email password w b data w1 t c :
  window w = Some b ->
  apiLogin env backend email password w = (Ok data, w1) ->
  get_prop data "access_token" = Some (JStr t) -> t <> "" ->
  get_prop data "csrf_token" = Some (JStr c) -> c <> "" ->
  getAuthToken w1 = (Ok (Some t), w1)
  /\ getCsrfToken w1 = (Ok (Some c), w1)
  /\ forall backend' endpoint options,
       mutating (method_of options) = true ->
       request_headers env backend' endpoint options w1
       = (Ok (<["X-CSRF-Token" := c]>
                (<["Authorization" := "Bearer " +:+ t]> (base_headers options))),
          w1).
Proof.
  intros Hw E Ht Hne Hc Hce.
  destruct w as [win snt con]. cbn [window] in Hw. subst win.
  rewrite apiLogin_browser in E. cbv zeta in E.
  destruct (backend snt _) as [|r]; [discriminate|].
  destruct (ok r); [|discriminate].
  destruct (json r) as [d|]; [|discriminate].
  destruct (get_prop d "access_token") as [a|] eqn:Ha; [|discriminate].
  injection E as -> <-.
  assert (Tt : truthy (JStr t) = true).
  { cbn. destruct (String.eqb_spec t ""); [contradiction | reflexivity]. }
  assert (Tc : truthy (JStr c) = true).
  { cbn. destruct (String.eqb_spec c ""); [contradiction | reflexivity]. }
  set (b' := login_storage data (receive r b)).
  assert (Hl : localStorage b' !! "auth_token" = Some t).
  { unfold b', login_storage, field. rewrite Ht, Hc. cbn [from_option id]. rewrite Tc.
    cbn [js_to_string].
    destruct (truthy (default JUndefined (get_prop data "refresh_token")));
      cbn [set_session set_local localStorage].
    - rewrite lookup_insert_ne by discriminate. apply lookup_insert_eq.
    - apply lookup_insert_eq. }
  assert (Hs : cached_token b' = Some c).
  { unfold cached_token, b', login_storage, field. rewrite Hc. cbn [from_option id].
    rewrite Tc. cbn [set_session sessionStorage js_to_string].
    rewrite lookup_insert_eq. cbn [nonempty]. rewrite Tc. reflexivity. }
  assert (Hg : forall snt' con',
            getCsrfToken (mkWorld (Some b') snt' con')
            = (Ok (Some c), mkWorld (Some b') snt' con')).
  { intros. apply getCsrfToken_cached, Hs. }
  split.
  { rewrite getAuthToken_eq. cbn [stored_bearer window]. rewrite Hl. reflexivity. }
  split; [apply Hg|].
  intros backend' endpoint options Hm.
  unfold request_headers. unfold bind at 1. rewrite getAuthToken_eq.
  cbn [stored_bearer window]. rewrite Hl. cbv zeta. rewrite Hm.
  unfold bind at 1. rewrite Hg. cbn [of_nullable]. rewrite Tc. cbn [negb].
  unfold bind at 1, ret at 1. rewrite Tc.
  unfold auth_headers. rewrite Tt. reflexivity.
Qed.

Ltac fetched :=
  cbn [window sent console fmap option_fmap option_map];
  rewrite ?receive_local, ?receive_session;
  repeat split; try discriminate.

(** *** [fetchCsrfToken] *)

(** X10.  [fetchCsrfToken] never throws.  In a browser it sends exactly
    one request, the one [ensureCsrfToken] sends, also when no bearer token
    is stored (the header is then [Bearer null]) and also when a CSRF token
    is cached; without a [window] it sends none and logs the failure.  It
    writes neither storage, so the token it returns is not cached, and a
    truthy token it returns is the one the endpoint issued. *)
Theorem fetchCsrfToken_contract w :
  exists v w',
    fetchCsrfToken env backend w = (Ok v, w')
    /\ local_store w' = local_store w
    /\ session_store w' = session_store w
    /\ match window w with
       | Some b =>
           let bearer := js_to_string (of_nullable (localStorage b !! "auth_token")) in
           sent w' = sent w ++ [csrf_request env bearer]
           /\ (truthy v = true ->
                 issued_token env backend (sent w) bearer = Some v)
       | None =>
           v = JNull /\ sent w' = sent w
           /\ console w' = console w ++ [fetch_error ReferenceError]
       end.
Proof.
  destruct w as [[b|] snt con].
  2:{ exists JNull. eexists. split; [reflexivity|]. cbn. auto. }
  unfold fetchCsrfToken, catch. unfold bind at 1.
  unfold localStorage_getItem, read_browser. cbn [window].
  unfold bind at 1, fetch. cbn [sent window console].
  unfold issued_token, csrf_request, local_store, session_store.
  cbn [window fmap option_fmap option_map]. cbv zeta.
  destruct (backend snt _) as [|r].
  { exists JNull. eexists. split; [reflexivity|]. fetched. }
  cbn [fmap option_fmap option_map].
  destruct (ok r).
  2:{ exists JNull. eexists. split; [reflexivity|]. fetched. }
  unfold bind. run.
  destruct (json r) as [data|].
  2:{ exists JNull. eexists. split; [reflexivity|]. fetched. }
  run. destruct (get_prop data "csrf_token") as [v|].
  2:{ exists JNull. eexists. split; [reflexivity|]. fetched. }
  exists v. eexists. split; [reflexivity|]. fetched.
  intros ->. reflexivity.
Qed.

End MoreAuth.

(** X8, witness: wrong credentials typed into a tab that is signed in. *)
Lemma login_failure_state_witness :
  let w := mkWorld (Some signed_in) [] [] in
  let out := login no_env wrong_password "root@example.com" "guess"
               (initial_state, w) in
  fst out = Throw (Thrown (JObj [("detail", JStr "Incorrect email or password")]))
  /\ error (fst (snd out)) = JStr "Incorrect email or password"
  /\ isLoading (fst (snd out)) = false
  /\ local_store (snd (snd out)) = Some (localStorage signed_in).
Proof.
  intros w out.
  destruct (login_failure_state no_env wrong_password "root@example.com" "guess"
              initial_state w signed_in
              (Thrown (JObj [("detail", JStr "Incorrect email or password")]))
              (snd out) eq_refl eq_refl)
    as (_ & H2 & H3 & _).
  split; [reflexivity|]. rewrite H2, H3. repeat split.
Defined.

(** X9, witness: the sign-in of the member, then a POST. *)
Lemma login_primes_requests_witness :
  let out := apiLogin no_env member_login "member@example.com" "secret" fresh_tab in
  fst (getAuthToken (snd out)) = Ok (Some "acc")
  /\ fst (getCsrfToken (snd out)) = Ok (Some "csrf")
  /\ fst (request_headers no_env offline "/api/v1/admin/users/7/ban" opts_post
            (snd out))
     = Ok (<["X-CSRF-Token" := "csrf"]>
             (<["Authorization" := "Bearer acc"]> (base_headers opts_post))).
Proof.
  intros out.
  destruct (login_primes_requests no_env member_login "member@example.com" "secret"
              fresh_tab (mkBrowser ∅ ∅ "")
              (JObj [("access_token", JStr "acc"); ("refresh_token", JStr "ref");
                     ("token_type", JStr "bearer"); ("csrf_token", JStr "csrf");
                     ("user", member)])
              (snd out) "acc" "csrf"
              eq_refl eq_refl eq_refl ltac:(discriminate)
              eq_refl ltac:(discriminate))
    as (H1 & H2 & H3).
  rewrite H1, H2, (H3 offline "/api/v1/admin/users/7/ban" opts_post eq_refl).
  repeat split.
Defined.

(** ** The session check *)

Section MoreStore.

Variable env : option string.
Variable backend : list Request -> Request -> FetchOutcome.

(** The two ways [fetchUser] ends. *)
Lemma fetchUser_outcome s w :
  exists s' w',
    fetchUser env backend (s, w) = (Ok tt, (s', w'))
    /\ isLoading s' = isLoading s /\ error s' = error s
    /\ (isAuthenticated s' = true
        /\ getCurrentUser env backend w = (Ok (user s'), w')
        /\ is_admin_user (user s')
        \/ isAuthenticated s' = false /\ user s' = JNull
           /\ apiLogout (snd (getCurrentUser env backend w)) = (Ok tt, w')).
Proof.
  unfold fetchUser, catch. unfold bind at 1. unfold lift at 1. cbn [fst snd].
  destruct (getCurrentUser env backend w) as [[u|e] w1] eqn:E.
  - unfold bind at 1. run.
    destruct (get_prop u "is_admin") as [flag|] eqn:Hf; run.
    + destruct (truthy flag) eqn:T.
      * do 2 eexists. split; [reflexivity|]. cbn. split; [reflexivity|].
        split; [reflexivity|]. left. split; [reflexivity|].
        split; [reflexivity|]. exists flag. auto.
      * destruct (apiLogout_clears w1) as (w2 & Hl & _).
        unfold bind, lift. cbn [fst snd]. rewrite Hl.
        do 2 eexists. split; [reflexivity|]. cbn. auto 6.
    + destruct (apiLogout_clears w1) as (w2 & Hl & _).
      unfold bind, lift. cbn [fst snd]. rewrite Hl.
      do 2 eexists. split; [reflexivity|]. cbn. auto 6.
  - destruct (apiLogout_clears w1) as (w2 & Hl & _).
    unfold bind, lift. cbn [fst snd]. rewrite Hl.
    do 2 eexists. split; [reflexivity|]. cbn. auto 6.
Qed.

Lemma apiLogout_removes w w' :
  apiLogout w = (Ok tt, w') ->
  stored_bearer w' = None /\ stored_local "refresh_token" w' = None
  /\ session_store w' = session_store w
  /\ sent w' = sent w /\ console w' = console w.
Proof.
  destruct w as [[b|] snt con]; intros [= <-]; cbn; repeat split.
  - rewrite lookup_delete_ne by discriminate. apply lookup_delete_eq.
  - apply lookup_delete_eq.
Qed.

(** X11.  [fetchUser] never throws and ends in one of two ways, whatever
    the backend answers.  Either the store is authenticated as the very
    value the request for the current user returned, whose [is_admin] is
    truthy, and [localStorage] is as it was; or the store holds no user, is
    not authenticated, and the bearer and refresh tokens are gone from
    storage.  So after [fetchUser], [isAuthenticated] implies an admin.
    [isLoading] and [error] are never touched. *)
Theorem fetchUser_admin_only s w :
  exists s' w',
    fetchUser env backend (s, w) = (Ok tt, (s', w'))
    /\ isLoading s' = isLoading s /\ error s' = error s
    /\ (isAuthenticated s' = true
        /\ fst (getCurrentUser env backend w) = Ok (user s')
        /\ is_admin_user (user s')
        /\ local_store w' = local_store w
        \/ isAuthenticated s' = false /\ user s' = JNull
           /\ stored_bearer w' = None
           /\ stored_local "refresh_token" w' = None).
Proof.
  destruct (fetchUser_outcome s w) as (s' & w' & H & Hl & He & Hc).
  exists s', w'. do 3 (split; [assumption|]).
  destruct Hc as [(Ha & Hu & Hadm)|(Ha & Hu & Hout)].
  - left. rewrite Hu. do 3 (split; [auto|]).
    pose proof (kept_apiRequest env backend "/api/v1/users/me"
                  (mkInit None None None) w) as (Hk & _).
    unfold getCurrentUser in Hu. rewrite Hu in Hk. exact Hk.
  - right. destruct (apiLogout_removes _ _ Hout) as (H1 & H2 & _). auto.
Qed.

(** *** The layout's gate *)

Lemma is_admin_user_truthy u : is_admin_user u -> truthy u = true.
Proof.
  intros (flag & H & T). destruct u; try reflexivity; cbn in H;
    try discriminate; injection H as <-; discriminate.
Qed.

(** X12.  [checkAdmin] on a page other than the login page, in a browser.
    Without a stored bearer token (absent or empty) it redirects to
    [/login] at once: nothing is sent, the store is not touched, and
    [loading] is not reset.  With one it calls [fetchUser] and then either
    sets [isAdmin], when the store holds an admin, or redirects to
    [/login] with the session cleared; [loading] ends [false] both ways
    and exactly one redirect happens in the second.  So a layout that
    starts with [isAdmin] null shows the admin pages only to a user whose
    [is_admin] is truthy. *)
Theorem checkAdmin_gate pathname l s w b :
  window w = Some b -> pathname <> "/login" ->
  exists l' s' w',
    checkAdmin env backend pathname (l, (s, w)) = (Ok tt, (l', (s', w')))
    /\ (nonempty (localStorage b !! "auth_token") = None
        /\ l' = mkLayout (isAdmin l) (loading l) (pushed l ++ ["/login"])
        /\ s' = s /\ w' = w
        \/ nonempty (localStorage b !! "auth_token") <> None
           /\ loading l' = false
           /\ fetchUser env backend (s, w) = (Ok tt, (s', w'))
           /\ (isAdmin l' = Some true /\ pushed l' = pushed l
               /\ isAuthenticated s' = true /\ is_admin_user (user s')
               \/ isAdmin l' = isAdmin l /\ pushed l' = pushed l ++ ["/login"]
                  /\ isAuthenticated s' = false /\ user s' = JNull
                  /\ stored_bearer w' = None))
    /\ (isAdmin l = None -> view pathname l' = AdminPages ->
          isAuthenticated s' = true /\ is_admin_user (user s')).
Proof.
  intros Hw Hp. unfold checkAdmin.
  destruct (String.eqb_spec pathname "/login") as [|_]; [contradiction|].
  unfold bind at 1. unfold in_store at 1, lift at 1. cbn [fst snd].
  unfold localStorage_getItem, read_browser. rewrite Hw.
  rewrite nonempty_truthy.
  assert (Hview : forall l0, view pathname l0
            = if loading l0 || match isAdmin l0 with None => true | Some _ => false end
              then Spinner else AdminPages).
  { intros l0. unfold view.
    destruct (String.eqb_spec pathname "/login"); [contradiction | reflexivity]. }
  destruct (nonempty (localStorage b !! "auth_token")) as [t|] eqn:N; cbn [negb].
  2:{ do 3 eexists. split; [reflexivity|]. split; [left; auto|].
      intros Hn. rewrite Hview. cbn. rewrite Hn, orb_true_r. discriminate. }
  destruct (fetchUser_outcome s w) as (s' & w' & Hf & _ & _ & Hc).
  unfold finally, catch. unfold bind at 1. unfold in_store at 1. cbn [fst snd].
  rewrite Hf. unfold bind at 1, getState_user. cbn [fst snd].
  destruct Hc as [(Ha & Hu & Hadm)|(Ha & Hu & Hout)].
  - rewrite (is_admin_user_truthy _ Hadm). cbn [negb].
    destruct Hadm as (flag & Hflag & T).
    unfold bind at 1. unfold bind at 1. unfold prop. rewrite Hflag.
    cbn [of_option]. unfold ret at 1. unfold ret at 1. rewrite T. cbn [negb].
    do 3 eexists. split; [reflexivity|]. split.
    + right. split; [discriminate|]. split; [reflexivity|].
      split; [reflexivity|]. left. cbn. repeat split; auto. exists flag; auto.
    + intros _ _. split; [exact Ha | exists flag; auto].
  - rewrite Hu. cbn [truthy negb]. unfold bind at 1, ret at 1.
    destruct (apiLogout_removes _ _ Hout) as (H1 & _).
    do 3 eexists. split; [reflexivity|]. split.
    + right. split; [discriminate|]. split; [reflexivity|].
      split; [reflexivity|]. right. cbn. auto 6.
    + intros Hn. rewrite Hview. cbn. rewrite Hn. discriminate.
Qed.

End MoreStore.

(** X13.  After [handleLogout] a check on any page other than the login
    page sends nothing: the bearer token is gone, so [checkAdmin]
    redirects to [/login] before any request, whatever the backend would
    answer.  [handleLogout] itself sends nothing either, empties the
    store and redirects once. *)
Theorem logout_then_check env backend pathname l s w b :
  window w = Some b -> pathname <> "/login" ->
  exists l1 s1 w1 l2,
    handleLogout (l, (s, w)) = (Ok tt, (l1, (s1, w1)))
    /\ pushed l1 = pushed l ++ ["/login"]
    /\ user s1 = JNull /\ isAuthenticated s1 = false
    /\ sent w1 = sent w
    /\ checkAdmin env backend pathname (l1, (s1, w1)) = (Ok tt, (l2, (s1, w1)))
    /\ pushed l2 = pushed l ++ ["/login"; "/login"]
    /\ isAdmin l2 = isAdmin l.
Proof.
  intros Hw Hp. destruct w as [win snt con]. cbn [window] in Hw. subst win.
  do 4 eexists. split; [reflexivity|]. cbn [pushed user isAuthenticated sent].
  do 4 (split; [reflexivity|]).
  unfold checkAdmin.
  destruct (String.eqb_spec pathname "/login") as [|_]; [contradiction|].
  unfold bind at 1. unfold in_store at 1, lift at 1. cbn [fst snd].
  unfold localStorage_getItem, read_browser. cbn [window remove_local localStorage].
  rewrite lookup_delete_ne by discriminate. rewrite lookup_delete_eq.
  cbn [truthy of_nullable negb].
  split; [reflexivity|]. cbn. rewrite <- app_assoc. split; reflexivity.
Qed.

(** X12, witness: the admin opens the dashboard in a signed-in tab. *)
Lemma checkAdmin_gate_witness :
  let out := checkAdmin no_env admin_profile "/"
               (initial_layout, (initial_state, mkWorld (Some signed_in) [] [])) in
  fst out = Ok tt
  /\ view "/" (fst (snd out)) = AdminPages
  /\ is_admin_user (user (fst (snd (snd out)))).
Proof.
  intros out.
  destruct (checkAdmin_gate no_env admin_profile "/" initial_layout initial_state
              (mkWorld (Some signed_in) [] []) signed_in eq_refl
              ltac:(discriminate))
    as (l' & s' & w' & H & _ & Hv).
  unfold out. rewrite H. cbn [fst snd].
  assert (E : view "/" l' = AdminPages).
  { change l' with (fst (snd (Ok tt : Result unit, (l', (s', w'))))).
    rewrite <- H. reflexivity. }
  split; [reflexivity|]. split; [exact E|]. apply (Hv eq_refl E).
Defined.

(** X13, witness: signing out of the dashboard, then opening the users
    page. *)
Lemma logout_then_check_witness :
  let w := mkWorld (Some signed_in) [] [] in
  let after := snd (handleLogout (mkLayout (Some true) false [], (initial_state, w))) in
  sent (snd (snd (snd (checkAdmin no_env admin_profile "/users" after)))) = []
  /\ pushed (fst (snd (checkAdmin no_env admin_profile "/users" after)))
     = ["/login"; "/login"].
Proof.
  intros w after.
  destruct (logout_then_check no_env admin_profile "/users"
              (mkLayout (Some true) false []) initial_state w signed_in eq_refl
              ltac:(discriminate))
    as (l1 & s1 & w1 & l2 & H1 & _ & _ & _ & Hs & H2 & Hp & _).
  unfold after. rewrite H1. cbn [snd]. rewrite H2. cbn [fst snd].
  rewrite Hs, Hp. split; reflexivity.
Defined.

(** ** Paging *)

(** X14.  The page number stays in range.  From a page between 1 and
    [totalPages], an enabled Previous button leads to the page before and
    an enabled Next button to the page after, both within the range; the
    two undo each other; Previous never leads below 1, enabled or not; and
    where it is enabled, the unclamped Previous of the audit-log and
    page-visit pages agrees with the clamped one. *)
Theorem page_stays_in_range page total :
  1 <= page <= totalPages total ->
  (previous_disabled page = false ->
     previous_page page = page - 1
     /\ previous_page_unclamped page = previous_page page
     /\ 1 <= previous_page page <= totalPages total
     /\ next_disabled (previous_page page) total = false
     /\ next_page (previous_page page) = page)
  /\ (next_disabled page total = false ->
        1 <= next_page page <= totalPages total
        /\ previous_disabled (next_page page) = false
        /\ previous_page (next_page page) = page)
  /\ (forall p, 1 <= previous_page p)
  /\ (previous_disabled page = true -> previous_page page = page).
Proof.
  unfold previous_disabled, previous_page, previous_page_unclamped,
    next_disabled, next_page.
  intros H. repeat split; intros; lia.
Qed.

(** X15.  The rows announced in the footer tile the result.  With
    [total > 0] and the page between 1 and [totalPages]: the first row
    shown is the one after the [skip] rows asked of the backend; the range
    is not empty, ends within [total] and holds at most [limit] rows; page
    1 starts at row 1; while Next is enabled the page is full and the next
    page starts right after it; once Next is disabled the range ends at
    [total]. *)
Theorem footer_ranges_tile page total :
  footer_shown total = true ->
  1 <= page <= totalPages total ->
  first_shown page = skip page + 1
  /\ first_shown page <= last_shown page total <= total
  /\ last_shown page total - skip page <= limit
  /\ first_shown 1 = 1
  /\ (next_disabled page total = false ->
        last_shown page total = page * limit
        /\ first_shown (next_page page) = last_shown page total + 1)
  /\ (next_disabled page total = true -> last_shown page total = total).
Proof.
  unfold footer_shown, first_shown, last_shown, skip, next_disabled, next_page.
  intros Ht Hp. pose proof (totalPages_ceiling total) as Hc.
  pose proof (totalPages_ceiling total) as Hc'.
  unfold limit in *.
  repeat split; intros; try lia; nia.
Qed.

(** X14, witness: page 2 of 3. *)
Lemma page_stays_in_range_witness :
  previous_page 2 = 1 /\ next_page 2 = 3
  /\ previous_page (next_page 2) = 2 /\ next_page (previous_page 2) = 2.
Proof.
  destruct (page_stays_in_range 2 57 ltac:(vm_compute; split; discriminate))
    as (Hp & Hn & _).
  destruct (Hp eq_refl) as (_ & _ & _ & _ & H1).
  destruct (Hn eq_refl) as (_ & _ & H2).
  split; [reflexivity|]. split; [reflexivity|]. split; [exact H2 | exact H1].
Defined.

(** X15, witness: the last page of 57 rows shows rows 41 to 57. *)
Lemma footer_ranges_tile_witness :
  first_shown 3 = 41 /\ last_shown 3 57 = 57 /\ skip 3 = 40.
Proof.
  destruct (footer_ranges_tile 3 57 eq_refl ltac:(vm_compute; split; discriminate))
    as (_ & _ & _ & _ & _ & H).
  split; [reflexivity|]. split; [exact (H eq_refl) | reflexivity].
Defined.

(** ** The toast store *)

Section Toasts.

Import ToastStore.

Lemma after_snoc actions a : after (actions ++ [a]) = step (after actions) a.
Proof. unfold after. rewrite foldl_app. reflexivity. Qed.

Lemma append_inj p a b : p +:+ a = p +:+ b -> a = b.
Proof. induction p as [|c p IH]; cbn; [auto|]. intros [= H]. auto. Qed.

Lemma toast_id_inj n m :
  "toast-" +:+ pretty n = "toast-" +:+ pretty m -> n = m :> Z.
Proof. intros H. apply append_inj in H. apply (inj pretty), H. Qed.

Lemma filter_other_ids id (l : list Toast) :
  Forall (fun t => toast_id t <> id) l ->
  List.filter (fun t => negb (String.eqb (toast_id t) id)) l = l.
Proof.
  induction 1 as [|t l Ht _ IH]; [reflexivity|]. cbn.
  destruct (String.eqb_spec (toast_id t) id); [contradiction|].
  cbn. rewrite IH. reflexivity.
Qed.

Lemma filter_ids_in (p : Toast -> bool) l x :
  x ∈ toast_id <$> List.filter p l -> x ∈ toast_id <$> l.
Proof.
  induction l as [|t l IH]; cbn; [auto|].
  destruct (p t); cbn; rewrite ?elem_of_cons; intuition.
Qed.

Lemma filter_ids_NoDup (p : Toast -> bool) l :
  NoDup (toast_id <$> l) -> NoDup (toast_id <$> List.filter p l).
Proof.
  induction l as [|t l IH]; cbn; [auto|].
  rewrite NoDup_cons. intros [Hn Hd]. destruct (p t); cbn; [|auto].
  apply NoDup_cons. split; [|auto]. intros H. apply Hn. eapply filter_ids_in, H.
Qed.

Lemma filter_Forall {A} (P : A -> Prop) (p : A -> bool) l :
  Forall P l -> Forall P (List.filter p l).
Proof.
  induction 1 as [|t l Ht _ IH]; cbn; [constructor|].
  destruct (p t); [constructor|]; auto.
Qed.

(** The ids in use are distinct, each was issued, and the counter has
    not gone back. *)
Lemma add_invariant message ty d st :
  NoDup (toast_id <$> toasts st) -> issued st -> 0 <= toastIdCounter st ->
  NoDup (toast_id <$> toasts (add message ty d st))
  /\ issued (add message ty d st)
  /\ toastIdCounter (add message ty d st) = toastIdCounter st + 1
  /\ Forall (fun t => toast_id t <> "toast-" +:+ pretty (toastIdCounter st + 1))
       (toasts st).
Proof.
  intros Hd Hi Hc.
  assert (Hfresh : Forall (fun t => toast_id t
                     <> "toast-" +:+ pretty (toastIdCounter st + 1)) (toasts st)).
  { eapply Forall_impl; [exact Hi|]. cbn. intros t (n & Hn & ->) H.
    apply toast_id_inj in H. lia. }
  split; [|split; [|split]]; [| |reflexivity|exact Hfresh].
  - cbn [add notifyListeners toasts]. rewrite fmap_app. apply NoDup_app.
    split; [exact Hd|]. split; [|apply NoDup_singleton].
    intros x Hx. cbn. rewrite list_elem_of_singleton. intros ->.
    apply list_elem_of_fmap in Hx as (t & Ht & Hin).
    rewrite Forall_forall in Hfresh. apply (Hfresh t Hin). auto.
  - unfold issued. cbn [add notifyListeners toasts toastIdCounter].
    apply Forall_app. split.
    + eapply Forall_impl; [exact Hi|]. cbn. intros t (n & Hn & ->).
      exists n. split; [lia | reflexivity].
    + apply Forall_singleton. exists (toastIdCounter st + 1).
      split; [lia | reflexivity].
Qed.

Lemma step_invariant st a :
  NoDup (toast_id <$> toasts st) /\ issued st /\ 0 <= toastIdCounter st ->
  NoDup (toast_id <$> toasts (step st a)) /\ issued (step st a)
  /\ 0 <= toastIdCounter (step st a)
  /\ toastIdCounter (step st a)
     = toastIdCounter st + (if shows a then 1 else 0).
Proof.
  intros (Hd & Hi & Hc).
  assert (Hadd : forall m ty d,
            NoDup (toast_id <$> toasts (add m ty d st)) /\ issued (add m ty d st)
            /\ 0 <= toastIdCounter (add m ty d st)
            /\ toastIdCounter (add m ty d st) = toastIdCounter st + 1).
  { intros m ty d. destruct (add_invariant m ty d st Hd Hi Hc) as (H1 & H2 & H3 & _).
    rewrite H3. repeat split; auto; lia. }
  destruct a as [m t d|m d|m d|m d|m d|id| |l]; cbn [step shows];
    try apply Hadd.
  - cbn [removeToast notifyListeners toasts toastIdCounter].
    split; [apply filter_ids_NoDup, Hd|].
    split; [apply filter_Forall, Hi|]. lia.
  - cbn [mount toasts toastIdCounter]. repeat split; auto; lia.
  - cbn [unmount toasts toastIdCounter]. repeat split; auto; lia.
Qed.

Lemma after_invariant actions :
  NoDup (toast_id <$> toasts (after actions)) /\ issued (after actions)
  /\ 0 <= toastIdCounter (after actions)
  /\ toastIdCounter (after actions)
     = Z.of_nat (length (List.filter shows actions)).
Proof.
  induction actions as [|a actions IH] using rev_ind.
  { cbn. repeat split; [constructor | constructor | lia]. }
  destruct IH as (Hd & Hi & Hc & Hn).
  rewrite after_snoc.
  destruct (step_invariant (after actions) a (conj Hd (conj Hi Hc)))
    as (H1 & H2 & H3 & H4).
  do 3 (split; [assumption|]).
  rewrite H4, Hn, List.filter_app, length_app. cbn [List.filter].
  destruct (shows a); cbn [length]; lia.
Qed.

(** X16.  Toast ids are never reused.  After any sequence of calls to
    [showToast], [toast.success], [toast.error], [toast.info],
    [toast.warning] and [removeToast], with listeners mounting and
    unmounting in between, the toasts on display have pairwise distinct
    ids, each of the form [toast-n] with [n] between 1 and the counter; the
    counter is the number of toasts shown so far, so removing toasts never
    frees an id. *)
Theorem toast_ids_unique actions :
  let st := after actions in
  NoDup (toast_id <$> toasts st)
  /\ issued st
  /\ toastIdCounter st = Z.of_nat (length (List.filter shows actions)).
Proof.
  destruct (after_invariant actions) as (H1 & H2 & _ & H3). auto.
Qed.

(** X17.  Removing the toast just shown restores the list.  After any
    history, a toast added by [add] (the body of [showToast] and of the
    four [toast] functions) goes to the end of the list, and
    [removeToast] with its id removes it and no other toast. *)
Theorem toast_remove_undoes_show actions message ty d :
  let st := after actions in
  let shown := add message ty d st in
  exists t,
    toasts shown = toasts st ++ [t]
    /\ message = ToastStore.message t /\ type t = ty /\ duration t = d
    /\ toasts (removeToast (toast_id t) shown) = toasts st.
Proof.
  intros st shown.
  destruct (after_invariant actions) as (Hd & Hi & Hc & _).
  destruct (add_invariant message ty d st Hd Hi Hc) as (_ & _ & _ & Hfresh).
  eexists. split; [reflexivity|]. do 3 (split; [reflexivity|]).
  cbn [removeToast notifyListeners toasts shown add toast_id].
  rewrite List.filter_app, (filter_other_ids _ _ Hfresh). cbn [List.filter].
  rewrite String.eqb_refl. cbn. apply app_nil_r.
Qed.

(** *** The listeners *)

Lemma notify_keeps (v : list Toast) (ls : list nat) (m : gmap nat (list Toast)) l :
  m !! l = Some v ->
  foldl (fun m listener => <[listener := v]> m) m ls !! l = Some v.
Proof.
  revert m. induction ls as [|x ls IH]; intros m H; cbn; [exact H|].
  apply IH. destruct (decide (x = l)) as [->|Hx].
  - apply lookup_insert_eq.
  - rewrite lookup_insert_ne by exact Hx. exact H.
Qed.

Lemma notify_reaches (v : list Toast) (ls : list nat) (m : gmap nat (list Toast)) :
  Forall (fun l => foldl (fun m listener => <[listener := v]> m) m ls !! l = Some v)
    ls.
Proof.
  revert m. induction ls as [|x ls IH]; intros m; cbn; constructor.
  - apply notify_keeps, lookup_insert_eq.
  - apply IH.
Qed.

Lemma notifyListeners_notified st : notified (notifyListeners st).
Proof. apply notify_reaches. Qed.

Lemma remove_first_Forall (P : nat -> Prop) l ls :
  Forall P ls -> Forall P (remove_first l ls).
Proof.
  induction 1 as [|x ls Hx Hls IH]; cbn; [constructor|].
  destruct (Nat.eqb l x); [assumption | constructor; assumption].
Qed.

(** X18.  Every mounted toast container shows the toasts there are.
    After any sequence of calls and of mounts and unmounts, the state of
    each subscribed listener is the current list of toasts: a listener is
    given the list when it mounts and again at every change. *)
Theorem toast_listeners_current actions :
  notified (after actions).
Proof.
  induction actions as [|a actions IH] using rev_ind; [constructor|].
  rewrite after_snoc.
  destruct a as [m t d|m d|m d|m d|m d|id| |l]; cbn [step];
    try apply notifyListeners_notified.
  - unfold notified. cbn [mount toasts toastListeners states].
    apply Forall_app. split.
    + eapply Forall_impl; [exact IH|]. cbn. intros l Hl.
      destruct (decide (mounts (after actions) = l)) as [->|Hne].
      * apply lookup_insert_eq.
      * rewrite lookup_insert_ne by exact Hne. exact Hl.
    + apply Forall_singleton, lookup_insert_eq.
  - apply remove_first_Forall, IH.
Qed.

End Toasts.

(** ** Relative times *)

(** X19.  The units of [formatRelativeTime] are whole units elapsed.  For
    a valid date [d] milliseconds before now: below one minute, and for
    every date in the future, the text is [Just now]; below one hour it
    counts the whole minutes elapsed, between 1 and 59; below one day the
    whole hours, between 1 and 23; below seven days the whole days, between
    1 and 6; from seven days on it is the full date of [formatDateTime].
    The nested roundings of the code lose nothing against dividing the
    milliseconds directly. *)
Theorem relative_time_units Date_getTime now formatDateTime s date :
  s <> "" -> Date_getTime s = Some date ->
  let d := now - date in
  let out := formatRelativeTime Date_getTime now formatDateTime (Some s) in
  (d < 60000 -> out = "Just now")
  /\ (60000 <= d < 3600000 ->
        out = ago (d / 60000) "minute" /\ 1 <= d / 60000 <= 59)
  /\ (3600000 <= d < 86400000 ->
        out = ago (d / 3600000) "hour" /\ 1 <= d / 3600000 <= 23)
  /\ (86400000 <= d < 604800000 ->
        out = ago (d / 86400000) "day" /\ 1 <= d / 86400000 <= 6)
  /\ (604800000 <= d -> out = formatDateTime s).
Proof.
  intros Hs Hd d out. unfold out, formatRelativeTime.
  cbn [of_nullable truthy default from_option id].
  destruct (String.eqb_spec s ""); [contradiction|]. cbn [negb].
  rewrite Hd. cbv zeta. fold d.
  assert (Hm : d / 1000 / 60 = d / 60000) by (rewrite Z.div_div by lia; reflexivity).
  assert (Hh : d / 1000 / 60 / 60 = d / 3600000)
    by (rewrite !Z.div_div by lia; reflexivity).
  assert (Hday : d / 1000 / 60 / 60 / 24 = d / 86400000)
    by (rewrite !Z.div_div by lia; reflexivity).
  rewrite Hday, Hh, Hm.
  assert (Hcase : forall a b (x y : string),
            (if a <? b then x else y) = if bool_decide (a < b) then x else y).
  { intros. destruct (Z.ltb_spec a b).
    - rewrite bool_decide_eq_true_2 by assumption. reflexivity.
    - rewrite bool_decide_eq_false_2 by lia. reflexivity. }
  rewrite !Hcase.
  split; [|split; [|split; [|split]]]; intros H; try split;
    repeat (first [ rewrite bool_decide_eq_true_2
                      by (Z.div_mod_to_equations; lia)
                  | rewrite bool_decide_eq_false_2
                      by (Z.div_mod_to_equations; lia) ]);
    try reflexivity; Z.div_mod_to_equations; lia.
Qed.

(** X19, witness: ninety minutes before 10800000 reads as one hour. *)
Lemma relative_time_units_witness :
  formatRelativeTime epoch_ms 10800000 (fun s => s) (Some "5400000")
  = "1 hour ago".
Proof.
  destruct (relative_time_units epoch_ms 10800000 (fun s => s) "5400000" 5400000
              ltac:(discriminate) eq_refl)
    as (_ & _ & H & _).
  destruct (H ltac:(vm_compute; split; [discriminate | reflexivity])) as [-> _].
  reflexivity.
Defined.
